(** * RISC-V teaching simulator: a shallow embedding of [RISCV_Simulator]

    The repository holds two near-identical copies of one JavaScript class,
    [RISCV_Simulator]: the older one in [script.js] and the later one (the
    second source file).  Both are embedded below, each in its own module,
    over a common layer that models the JavaScript primitives they rely on
    (strings, [parseInt], Numbers, [Int32Array], plain objects as maps).

    Conventions of the embedding.
    - Program text is a [string] of code units U+0000..U+00FF.
    - A JavaScript Number is a [Number]: the numbers this program can build
      are integer-valued doubles, NaN and the two infinities.  [Num z] stands
      for the double of value [z]; the two zeros are identified (the program
      never divides and never prints a zero it did not take from a register).
    - [undefined] (a missing array element, a register index that is out of
      range) is the value [Undefined].
    - The DOM is outside the class.  The page is taken to provide the
      elements [log-container] and [memory-view], so that [log] and
      [updateMemoryView] complete; [log] records the entry in [logs], the
      rendering is left out.
    - [getRegIndex], [reset], [loadProgram] and the fetch and decode lines of
      [step] read the same in both files and are embedded once. *)

From Stdlib Require Import ZArith Ascii String List Bool Lia.
From stdpp Require Import base option list gmap.

Local Open Scope string_scope.
Local Open Scope Z_scope.

(** ** JavaScript strings *)

(** The code units that [String.prototype.trim] removes and [\s] matches
    (WhiteSpace and LineTerminator), restricted to U+0000..U+00FF. *)
Definition isWhiteSpace (c : ascii) : bool :=
  let n := N_of_ascii c in
  ((9 <=? n)%N && (n <=? 13)%N) || (n =? 32)%N || (n =? 160)%N.

Fixpoint trimStart (s : string) : string :=
  match s with
  | EmptyString => EmptyString
  | String c s' => if isWhiteSpace c then trimStart s' else s
  end.

Fixpoint trimEnd (s : string) : string :=
  match s with
  | EmptyString => EmptyString
  | String c s' =>
      let t := trimEnd s' in
      if isWhiteSpace c && (t =? "")%string then EmptyString else String c t
  end.

(** [s.trim()] *)
Definition trim (s : string) : string := trimEnd (trimStart s).

(** [s.split(sep)] for a one-character separator: the pieces between the
    separators, [[""]] for the empty string. *)
Fixpoint split (sep : ascii) (s : string) : list string :=
  match s with
  | EmptyString => [EmptyString]
  | String c s' =>
      if Ascii.eqb c sep then EmptyString :: split sep s'
      else match split sep s' with
           | h :: t => String c h :: t
           | [] => [String c EmptyString]
           end
  end.

(** [s.startsWith(p)] *)
Definition startsWith (p s : string) : bool := String.prefix p s.

(** [s.replace(/c/g, ' ')] for a single literal character [c]. *)
Fixpoint replaceAll (c : ascii) (by_ : ascii) (s : string) : string :=
  match s with
  | EmptyString => EmptyString
  | String d s' => String (if Ascii.eqb d c then by_ else d) (replaceAll c by_ s')
  end.

(** [s.split(/\s+/)]: every maximal run of white space is one separator; a
    run at the start or at the end of [s] leaves an empty piece there.
    [cur] is the piece being read, [inws] tells that the previous character
    belonged to a separator. *)
Fixpoint splitWsFrom (inws : bool) (cur : string) (s : string) : list string :=
  match s with
  | EmptyString => [cur]
  | String c s' =>
      if isWhiteSpace c then
        if inws then splitWsFrom true EmptyString s'
        else cur :: splitWsFrom true EmptyString s'
      else splitWsFrom false (String.append cur (String c EmptyString)) s'
  end.

Definition splitWs (s : string) : list string := splitWsFrom false EmptyString s.

Definition toUpperChar (c : ascii) : ascii :=
  let n := N_of_ascii c in
  if (97 <=? n)%N && (n <=? 122)%N then ascii_of_N (n - 32) else c.

(** [s.toUpperCase()].  Letters a..z are mapped to A..Z.  A code unit above
    U+007F is kept: JavaScript maps some of them to other non-ASCII code
    units (or U+00DF to "SS"), and no such result completes a mnemonic of
    the simulator, so every comparison of the result with a mnemonic is as
    in JavaScript. *)
Fixpoint toUpperCase (s : string) : string :=
  match s with
  | EmptyString => EmptyString
  | String c s' => String (toUpperChar c) (toUpperCase s')
  end.

Definition isDigit (c : ascii) : bool :=
  let n := N_of_ascii c in (48 <=? n)%N && (n <=? 57)%N.

(** [s.replace(/[^0-9]/g, '')] *)
Fixpoint keepDigits (s : string) : string :=
  match s with
  | EmptyString => EmptyString
  | String c s' => if isDigit c then String c (keepDigits s') else keepDigits s'
  end.

(** [l.includes(x)] on an array of strings. *)
Definition includes (l : list string) (x : string) : bool :=
  existsb (String.eqb x) l.

(** ** JavaScript Numbers *)

Inductive Number : Type :=
  | NaN
  | Num (z : Z)
  | Infinity (negative : bool).

Inductive Value : Type :=
  | Undefined
  | VNum (n : Number).

Global Instance Number_eq_dec : EqDecision Number.
Proof. solve_decision. Defined.

Global Instance Number_countable : Countable Number.
Proof.
  refine (inj_countable'
    (fun n => match n with
              | NaN => None
              | Num z => Some (inl z)
              | Infinity b => Some (inr b)
              end)
    (fun o => match o with
              | None => NaN
              | Some (inl z) => Num z
              | Some (inr b) => Infinity b
              end) _).
  intros [ | z | b]; reflexivity.
Defined.

(** The double nearest to the integer [z] (ties to even), an infinity when
    [z] is beyond the largest double. *)
Definition roundToDouble (z : Z) : Number :=
  let a := Z.abs z in
  if a <? 2 ^ 53 then Num z
  else
    let e := Z.log2 a - 52 in
    let q := a / 2 ^ e in
    let r := a mod 2 ^ e in
    let h := 2 ^ (e - 1) in
    let q' := if r <? h then q
              else if h <? r then q + 1
              else if Z.even q then q else q + 1 in
    let m := q' * 2 ^ e in
    if 2 ^ 1024 <=? m then Infinity (z <? 0) else Num (Z.sgn z * m).

Definition ToNumber (v : Value) : Number :=
  match v with
  | Undefined => NaN
  | VNum n => n
  end.

Definition isNaN (n : Number) : bool :=
  match n with NaN => true | _ => false end.

(** [a + b] on Numbers. *)
Definition js_add (a b : Number) : Number :=
  match a, b with
  | NaN, _ | _, NaN => NaN
  | Infinity s, Infinity s' => if Bool.eqb s s' then Infinity s else NaN
  | Infinity s, Num _ | Num _, Infinity s => Infinity s
  | Num x, Num y => roundToDouble (x + y)
  end.

Definition js_neg (a : Number) : Number :=
  match a with
  | NaN => NaN
  | Num x => Num (- x)
  | Infinity s => Infinity (negb s)
  end.

(** [a - b] *)
Definition js_sub (a b : Number) : Number := js_add a (js_neg b).

(** [a * b] *)
Definition js_mul (a b : Number) : Number :=
  match a, b with
  | NaN, _ | _, NaN => NaN
  | Infinity s, Infinity s' => Infinity (xorb s s')
  | Infinity s, Num y | Num y, Infinity s =>
      if y =? 0 then NaN else Infinity (xorb s (y <? 0))
  | Num x, Num y => roundToDouble (x * y)
  end.

(** [a < b]: false as soon as one side is NaN. *)
Definition js_lt (a b : Number) : bool :=
  match a, b with
  | NaN, _ | _, NaN => false
  | Infinity s, Infinity s' => s && negb s'
  | Infinity s, Num _ => s
  | Num _, Infinity s => negb s
  | Num x, Num y => x <? y
  end.

(** Reduction of an integer to the signed 32-bit range. *)
Definition wrap32 (z : Z) : Z := (z + 2 ^ 31) mod 2 ^ 32 - 2 ^ 31.

Definition ToInt32 (n : Number) : Z :=
  match n with
  | Num z => wrap32 z
  | _ => 0
  end.

Definition ToUint32 (n : Number) : Z :=
  match n with
  | Num z => z mod 2 ^ 32
  | _ => 0
  end.

(** [a & b], [a | b], [a << b] *)
Definition js_and (a b : Number) : Number := Num (Z.land (ToInt32 a) (ToInt32 b)).
Definition js_or (a b : Number) : Number := Num (Z.lor (ToInt32 a) (ToInt32 b)).
Definition js_shl (a b : Number) : Number :=
  Num (wrap32 (Z.shiftl (ToInt32 a) (Z.land (ToUint32 b) 31))).

(** Truthiness of a value, for [x || 0]. *)
Definition truthy (v : Value) : bool :=
  match v with
  | Undefined => false
  | VNum NaN => false
  | VNum (Num z) => negb (z =? 0)
  | VNum (Infinity _) => true
  end.

(** [v || 0] *)
Definition orZero (v : Value) : Value := if truthy v then v else VNum (Num 0).

(** *** parseInt *)

Definition digitValue (c : ascii) : option Z :=
  let n := Z.of_N (N_of_ascii c) in
  if (48 <=? n) && (n <=? 57) then Some (n - 48)
  else if (97 <=? n) && (n <=? 122) then Some (n - 87)
  else if (65 <=? n) && (n <=? 90) then Some (n - 55)
  else None.

(** The value of the longest prefix of [s] made of digits of radix [R];
    [acc] is [None] as long as no digit was read. *)
Fixpoint parseDigits (R : Z) (acc : option Z) (s : string) : option Z :=
  match s with
  | EmptyString => acc
  | String c s' =>
      match digitValue c with
      | Some d =>
          if d <? R then parseDigits R (Some (R * default 0 acc + d)) s'
          else acc
      | None => acc
      end
  end.

(** [parseInt(arg)] with no radix argument.  [None] is the argument
    [undefined], which [parseInt] first turns into the string "undefined".
    Leading white space is dropped, then an optional sign, then an optional
    "0x"/"0X" (which selects radix 16); the digits that follow give the
    value, NaN when there is none.  The value is the double nearest to the
    mathematical integer (for more than 20 significant decimal digits
    ECMAScript allows an approximation; the exact reading is taken). *)
Definition parseInt (arg : option string) : Number :=
  let inputString := match arg with None => "undefined" | Some s => s end in
  let s0 := trimStart inputString in
  let '(neg, s1) :=
    match s0 with
    | String "-" r => (true, r)
    | String "+" r => (false, r)
    | _ => (false, s0)
    end in
  let '(R, s2) :=
    match s1 with
    | String "0" (String "x" r) => (16, r)
    | String "0" (String "X" r) => (16, r)
    | _ => (10, s1)
    end in
  match parseDigits R None s2 with
  | None => NaN
  | Some v => if neg then js_neg (roundToDouble v) else roundToDouble v
  end.

(** [a === b] on Numbers. *)
Definition js_strict_eq (a b : Number) : bool :=
  match a, b with
  | Num x, Num y => x =? y
  | Infinity s, Infinity s' => Bool.eqb s s'
  | _, _ => false
  end.

(** ** The state of a [RISCV_Simulator] object *)

(** An element of [instrMemory]: [{addr, text, binary}]. *)
Record Instr : Type := mkInstr {
  addr : Z;
  text : string;
  binary : string
}.

(** What a step appends to the generic trace line [PC[pc]: text]. *)
Inductive Annotation : Type :=
  | NoNote
  | LoadNote (val : Value) (address : Number)    (* " -> Leu val do end address" *)
  | StoreNote (val : Value) (address : Number)   (* " -> Salvou val no end address" *)
  | PrintNote (val : Value).                     (* " >> SAIDA: val" *)

(** The entries of [logs].  The two files word the messages differently;
    an entry keeps what a message is about and the data it carries. *)
Inductive LogEntry : Type :=
  | LogLoaded                                           (* "Programa carregado. ..." *)
  | LogProgramEnd                                       (* "Fim do programa (...)." *)
  | LogStep (at_pc : Z) (source : string) (note : Annotation)
  | LogError (at_pc : Z).                               (* "ERRO ... na linha pc: message" *)

(** The fields of the object.  [regs] is the [Int32Array(32)], [dataMemory]
    the plain object used as a map from the address (as a property key) to
    the stored value.  [pc] only ever holds small multiples of 4 and is kept
    as an integer. *)
Record State : Type := mkState {
  pc : Z;
  regs : list Z;
  instrMemory : list Instr;
  dataMemory : gmap Number Value;
  halted : bool;
  logs : list LogEntry
}.

Definition set_pc (v : Z) (st : State) : State :=
  mkState v (regs st) (instrMemory st) (dataMemory st) (halted st) (logs st).
Definition set_regs (v : list Z) (st : State) : State :=
  mkState (pc st) v (instrMemory st) (dataMemory st) (halted st) (logs st).
Definition set_instrMemory (v : list Instr) (st : State) : State :=
  mkState (pc st) (regs st) v (dataMemory st) (halted st) (logs st).
Definition set_dataMemory (v : gmap Number Value) (st : State) : State :=
  mkState (pc st) (regs st) (instrMemory st) v (halted st) (logs st).
Definition set_halted (v : bool) (st : State) : State :=
  mkState (pc st) (regs st) (instrMemory st) (dataMemory st) v (logs st).
Definition set_logs (v : list LogEntry) (st : State) : State :=
  mkState (pc st) (regs st) (instrMemory st) (dataMemory st) (halted st) v.

(** What [step()] returns: [false] or [{executed: true, binary}]. *)
Inductive StepResult : Type :=
  | StepFalse
  | Executed (bin : string).

Definition succeeded (r : StepResult) : bool :=
  match r with StepFalse => false | Executed _ => true end.

(** *** Typed array and object accesses *)

(** [regs[i]] on the [Int32Array]: [undefined] unless [i] is an index of the
    array. *)
Definition regGet (rs : list Z) (i : Number) : Value :=
  match i with
  | Num z =>
      if 0 <=? z then
        match rs !! Z.to_nat z with
        | Some v => VNum (Num v)
        | None => Undefined
        end
      else Undefined
  | _ => Undefined
  end.

(** [regs[i] = v] on the [Int32Array]: the value is converted with ToInt32;
    nothing happens unless [i] is an index of the array. *)
Definition regSet (rs : list Z) (i : Number) (v : Number) : list Z :=
  match i with
  | Num z => if 0 <=? z then <[Z.to_nat z := ToInt32 v]> rs else rs
  | _ => rs
  end.

(** [dataMemory[a]]: [undefined] when the object has no such property. *)
Definition memGet (m : gmap Number Value) (a : Number) : Value :=
  match m !! a with
  | Some v => v
  | None => Undefined
  end.

(** ** Statements that may throw

    The body of [try] in [step] is a computation over the object that either
    completes or throws; what it did to the object before throwing stays. *)

Inductive Completion (A : Type) : Type :=
  | Normal (a : A)
  | Throw.
Arguments Normal {A} a.
Arguments Throw {A}.

Definition M (A : Type) : Type := State -> Completion A * State.

Global Instance M_ret : MRet M := fun A a st => (Normal a, st).
Global Instance M_bind : MBind M := fun A B f m st =>
  match m st with
  | (Normal a, st') => f a st'
  | (Throw, st') => (Throw, st')
  end.

Definition throw {A : Type} : M A := fun st => (Throw, st).
Definition readReg (i : Number) : M Value := fun st => (Normal (regGet (regs st) i), st).
Definition writeReg (i : Number) (v : Number) : M unit :=
  fun st => (Normal tt, set_regs (regSet (regs st) i v) st).
Definition readMem (a : Number) : M Value := fun st => (Normal (memGet (dataMemory st) a), st).
Definition writeMem (a : Number) (v : Value) : M unit :=
  fun st => (Normal tt, set_dataMemory (<[a := v]> (dataMemory st)) st).
Definition readPc : M Z := fun st => (Normal (pc st), st).
Definition writePc (v : Z) : M unit := fun st => (Normal tt, set_pc v st).

(** ** Methods the two files share word for word *)

(** [reset()] *)
Definition reset (st : State) : State :=
  let st := set_pc 0 st in
  let st := set_regs (replicate 32 0) st in
  let st := set_instrMemory [] st in
  let st := set_dataMemory ∅ st in
  let st := set_halted true st in
  set_logs [] st.

(** The object right after [constructor()]. *)
Definition new_RISCV_Simulator : State :=
  reset (mkState 0 [] [] ∅ true []).

(** [log(msg)]: [this.logs.push(msg)] (the rest renders the entry). *)
Definition log (msg : LogEntry) (st : State) : State :=
  set_logs (logs st ++ [msg]) st.

Definition logM (msg : LogEntry) : M unit := fun st => (Normal tt, log msg st).

(** [updateMemoryView()] only rewrites the DOM. *)
Definition updateMemoryView : M unit := mret tt.

(** The body of [getRegIndex] once [regName] is a string. *)
Definition regIndex (regName : string) : Number :=
  let clean := keepDigits regName in
  let idx := parseInt (Some clean) in
  if isNaN idx then Num 0 else idx.

(** [getRegIndex(regName)]; [regName.replace] throws a TypeError when
    [regName] is [undefined]. *)
Definition getRegIndex (regName : option string) : M Number :=
  match regName with
  | None => throw
  | Some regName => mret (regIndex regName)
  end.

(** The decode line of [step], the same in both files:
    [text.replace(/,/g,' ').replace(/\(/g,' ').replace(/\)/g,' ').split(/\s+/)]. *)
Definition decode (txt : string) : list string :=
  splitWs (replaceAll ")" " " (replaceAll "(" " " (replaceAll "," " " txt))).

(** The fetch line of [step]: [instrMemory.find(i => i.addr === this.pc)]. *)
Definition fetch (st : State) : option Instr :=
  List.find (fun i => addr i =? pc st) (instrMemory st).

(** The [forEach] callback of [loadProgram], given the function that builds
    the cosmetic [binary] field; the accumulator is the object and the local
    [currentAddr]. *)
Definition loadLine (fakeBinary : string -> string)
    (acc : State * Z) (line : string) : State * Z :=
  let '(st, currentAddr) := acc in
  let cleanLine := trim line in
  if negb (cleanLine =? "")%string && negb (startsWith "#" cleanLine) then
    (set_instrMemory
       (instrMemory st ++ [mkInstr currentAddr cleanLine (fakeBinary cleanLine)]) st,
     currentAddr + 4)
  else (st, currentAddr).

(** [loadProgram(text)], the same in both files up to [generateFakeBinary]. *)
Definition loadProgramWith (fakeBinary : string -> string)
    (txt : string) (st : State) : State :=
  let st := reset st in
  let lines := split "010" txt in
  let currentAddr := 0 in
  let '(st, _) := fold_left (loadLine fakeBinary) lines (st, currentAddr) in
  let st := if (0 <? Z.of_nat (length (instrMemory st))) then set_halted false st else st in
  log LogLoaded st.

(** [opcodes[op] || '0000000'] on the literal table of [generateFakeBinary]. *)
Fixpoint lookupOpcode (table : list (string * string)) (op : string) : string :=
  match table with
  | [] => "0000000"
  | (k, v) :: rest => if (k =? op)%string then v else lookupOpcode rest op
  end.

Definition bool_to_Number (b : bool) : Number := if b then Num 1 else Num 0.

(** ** The later file *)
Module Part000.

Definition opcodes : list (string * string) :=
  [("ADD", "0110011"); ("SUB", "0110011"); ("AND", "0110011");
   ("OR", "0110011"); ("SLT", "0110011"); ("MULT", "0110011");
   ("ADDI", "0010011"); ("SLTI", "0010011");
   ("LW", "0000011"); ("SW", "0100011"); ("PRINT", "1110011")].

(** [generateFakeBinary(instr)] *)
Definition generateFakeBinary (instr : string) : string :=
  let parts := splitWs (replaceAll "," " " instr) in
  let op := toUpperCase (hd "" parts) in
  let opcode := lookupOpcode opcodes op in
  String.append "??????? ????? ????? ??? " opcode.

(** [loadProgram(text)] *)
Definition loadProgram (txt : string) (st : State) : State :=
  loadProgramWith generateFakeBinary txt st.

(** The dispatch inside [try], up to the trace annotation it builds. *)
Definition execute (op : string) (parts : list string) : M Annotation :=
  if includes ["ADD"; "SUB"; "AND"; "OR"; "SLT"; "MULT"; "SLL"] op then
    rd ← getRegIndex (parts !! 1%nat);
    rs1 ← getRegIndex (parts !! 2%nat);
    rs2 ← getRegIndex (parts !! 3%nat);
    v1 ← readReg rs1;
    v2 ← readReg rs2;
    let v1 := ToNumber v1 in
    let v2 := ToNumber v2 in
    let res :=
      if (op =? "ADD")%string then js_or (js_add v1 v2) (Num 0)
      else if (op =? "SUB")%string then js_or (js_sub v1 v2) (Num 0)
      else if (op =? "MULT")%string then js_or (js_mul v1 v2) (Num 0)
      else if (op =? "AND")%string then js_or (js_and v1 v2) (Num 0)
      else if (op =? "OR")%string then js_or (js_or v1 v2) (Num 0)
      else if (op =? "SLT")%string then bool_to_Number (js_lt v1 v2)
      else if (op =? "SLL")%string then js_or (js_shl v1 v2) (Num 0)
      else Num 0 in
    _ ← (if negb (js_strict_eq rd (Num 0)) then writeReg rd res else mret tt);
    mret NoNote
  else if includes ["ADDI"; "SLTI"] op then
    rd ← getRegIndex (parts !! 1%nat);
    rs1 ← getRegIndex (parts !! 2%nat);
    let imm := parseInt (parts !! 3%nat) in
    v1 ← readReg rs1;
    let v1 := ToNumber v1 in
    let res :=
      if (op =? "ADDI")%string then js_or (js_add v1 imm) (Num 0)
      else if (op =? "SLTI")%string then bool_to_Number (js_lt v1 imm)
      else Num 0 in
    _ ← (if negb (js_strict_eq rd (Num 0)) then writeReg rd res else mret tt);
    mret NoNote
  else if (op =? "LW")%string then
    rd ← getRegIndex (parts !! 1%nat);
    rs1 ← getRegIndex (parts !! 2%nat);
    let offset := parseInt (parts !! 3%nat) in
    base ← readReg rs1;
    let addr := js_add (ToNumber base) offset in
    cell ← readMem addr;
    let val := orZero cell in
    _ ← (if negb (js_strict_eq rd (Num 0)) then writeReg rd (ToNumber val) else mret tt);
    mret (LoadNote val addr)
  else if (op =? "SW")%string then
    rs2 ← getRegIndex (parts !! 1%nat);
    rs1 ← getRegIndex (parts !! 2%nat);
    let offset := parseInt (parts !! 3%nat) in
    base ← readReg rs1;
    let addr := js_add (ToNumber base) offset in
    stored ← readReg rs2;
    _ ← writeMem addr stored;
    shown ← readReg rs2;
    _ ← updateMemoryView;
    mret (StoreNote shown addr)
  else if (op =? "PRINT")%string then
    reg ← getRegIndex (parts !! 1%nat);
    val ← readReg reg;
    mret (PrintNote val)
  else mret NoNote.

(** The whole [try] block: the dispatch, then the trace line, the program
    counter and the result. *)
Definition tryBlock (op : string) (parts : list string)
    (currentInstr : Instr) (logPc : Z) : M StepResult :=
  note ← execute op parts;
  _ ← logM (LogStep logPc (text currentInstr) note);
  p ← readPc;
  _ ← writePc (p + 4);
  mret (Executed (binary currentInstr)).

(** [step()] *)
Definition step (st : State) : StepResult * State :=
  if halted st then (StepFalse, st)
  else
    match fetch st with
    | None =>
        let st := set_halted true st in
        let st := log LogProgramEnd st in
        (StepFalse, st)
    | Some currentInstr =>
        let parts := decode (text currentInstr) in
        let op := toUpperCase (hd "" parts) in
        match tryBlock op parts currentInstr (pc st) st with
        | (Normal r, st') => (r, st')
        | (Throw, st') =>
            let st' := log (LogError (pc st')) st' in
            let st' := set_halted true st' in
            (StepFalse, st')
        end
    end.

End Part000.

(** ** The file script.js *)
Module ScriptJs.

Definition opcodes : list (string * string) :=
  [("ADD", "0110011"); ("SUB", "0110011"); ("LW", "0000011");
   ("SW", "0100011"); ("ADDI", "0010011"); ("BEQ", "1100011")].

(** [generateFakeBinary(instr)] *)
Definition generateFakeBinary (instr : string) : string :=
  let op := toUpperCase (hd "" (split " " instr)) in
  let opcode := lookupOpcode opcodes op in
  String.append "??????? ????? ????? ??? " opcode.

(** [loadProgram(text)] *)
Definition loadProgram (txt : string) (st : State) : State :=
  loadProgramWith generateFakeBinary txt st.

(** [parts[2].includes('(')]: a TypeError when [parts[2]] is [undefined]. *)
Definition includesParen (part : option string) : M bool :=
  match part with
  | None => throw
  | Some s => mret (existsb (Ascii.eqb "(") (list_ascii_of_string s))
  end.

(** The dispatch inside [try], up to the trace annotation it builds. *)
Definition execute (op : string) (parts : list string) : M Annotation :=
  if includes ["ADD"; "SUB"; "AND"; "OR"; "SLT"; "MULT"; "ADDI"; "SLTI"; "SLL"] op then
    rd ← getRegIndex (parts !! 1%nat);
    rs1 ← getRegIndex (parts !! 2%nat);
    let res := Num 0 in
    res ← (if includes ["ADDI"; "SLTI"] op then
             let imm := parseInt (parts !! 3%nat) in
             v1 ← readReg rs1;
             let v1 := ToNumber v1 in
             let res := if (op =? "ADDI")%string then js_or (js_add v1 imm) (Num 0) else res in
             let res := if (op =? "SLTI")%string then bool_to_Number (js_lt v1 imm) else res in
             mret res
           else
             rs2 ← getRegIndex (parts !! 3%nat);
             v1 ← readReg rs1;
             v2 ← readReg rs2;
             let v1 := ToNumber v1 in
             let v2 := ToNumber v2 in
             let res := if (op =? "ADD")%string then js_or (js_add v1 v2) (Num 0) else res in
             let res := if (op =? "SUB")%string then js_or (js_sub v1 v2) (Num 0) else res in
             let res := if (op =? "MULT")%string then js_or (js_mul v1 v2) (Num 0) else res in
             let res := if (op =? "AND")%string then js_or (js_and v1 v2) (Num 0) else res in
             let res := if (op =? "OR")%string then js_or (js_or v1 v2) (Num 0) else res in
             let res := if (op =? "SLT")%string then bool_to_Number (js_lt v1 v2) else res in
             let res := if (op =? "SLL")%string then js_or (js_shl v1 v2) (Num 0) else res in
             mret res);
    _ ← (if negb (js_strict_eq rd (Num 0)) then writeReg rd res else mret tt);
    mret NoNote
  else if (op =? "LW")%string then
    rd ← getRegIndex (parts !! 1%nat);
    _ ← includesParen (parts !! 2%nat);
    rs1 ← getRegIndex (parts !! 2%nat);
    let offset := parseInt (parts !! 3%nat) in
    base ← readReg rs1;
    let addr := js_add (ToNumber base) offset in
    cell ← readMem addr;
    let val := orZero cell in
    _ ← (if negb (js_strict_eq rd (Num 0)) then writeReg rd (ToNumber val) else mret tt);
    mret (LoadNote val addr)
  else if (op =? "SW")%string then
    rs2 ← getRegIndex (parts !! 1%nat);
    rs1 ← getRegIndex (parts !! 2%nat);
    let offset := parseInt (parts !! 3%nat) in
    base ← readReg rs1;
    let addr := js_add (ToNumber base) offset in
    stored ← readReg rs2;
    _ ← writeMem addr stored;
    shown ← readReg rs2;
    _ ← updateMemoryView;
    mret (StoreNote shown addr)
  else if (op =? "PRINT")%string then
    reg ← getRegIndex (parts !! 1%nat);
    val ← readReg reg;
    mret (PrintNote val)
  else mret NoNote.

Definition tryBlock (op : string) (parts : list string)
    (currentInstr : Instr) (logPc : Z) : M StepResult :=
  note ← execute op parts;
  _ ← logM (LogStep logPc (text currentInstr) note);
  p ← readPc;
  _ ← writePc (p + 4);
  mret (Executed (binary currentInstr)).

(** [step()] *)
Definition step (st : State) : StepResult * State :=
  if halted st then (StepFalse, st)
  else
    match fetch st with
    | None =>
        let st := set_halted true st in
        let st := log LogProgramEnd st in
        (StepFalse, st)
    | Some currentInstr =>
        let parts := decode (text currentInstr) in
        let op := toUpperCase (hd "" parts) in
        match tryBlock op parts currentInstr (pc st) st with
        | (Normal r, st') => (r, st')
        | (Throw, st') =>
            let st' := log (LogError (pc st')) st' in
            let st' := set_halted true st' in
            (StepFalse, st')
        end
    end.

End ScriptJs.

(** [n] calls of a [step] function in a row, with their results in order. *)
Fixpoint run (step : State -> StepResult * State) (n : nat) (st : State)
    : list StepResult * State :=
  match n with
  | O => ([], st)
  | S n' =>
      let '(r, st1) := step st in
      let '(rs, st2) := run step n' st1 in
      (r :: rs, st2)
  end.

(** * Vocabulary of the statements *)

(** ** Values and register files *)

Definition int32 (z : Z) : Prop := - 2 ^ 31 <= z < 2 ^ 31.

(** What [new Int32Array(32)] guarantees and every write keeps: 32 elements,
    each a signed 32-bit integer. *)
Record regs_ok (rs : list Z) : Prop := mk_regs_ok {
  regs_len : length rs = 32%nat;
  regs_int32 : Forall int32 rs
}.

(** An index that [getRegIndex] can return and that is no element of the
    register file: 32 or more (an infinity for a token with hundreds of
    digits). *)
Definition outOfRange (idx : Number) : bool :=
  match idx with
  | Num z => 32 <=? z
  | Infinity _ => true
  | NaN => false
  end.

(** ** The instruction a step works on *)

(** The operand tokens and the mnemonic [step] decodes from an instruction. *)
Definition partsOf (i : Instr) : list string := decode (text i).
Definition opOf (i : Instr) : string := toUpperCase (hd "" (partsOf i)).

Definition rTypes : list string := ["ADD"; "SUB"; "AND"; "OR"; "SLT"; "MULT"; "SLL"].
Definition iTypes : list string := ["ADDI"; "SLTI"].

(** The twelve mnemonics that [step] dispatches on. *)
Definition mnemonics : list string := rTypes ++ iTypes ++ ["LW"; "SW"; "PRINT"].

(** The mnemonics whose first operand is a destination register. *)
Definition withDestination : list string := rTypes ++ iTypes ++ ["LW"].

(** How many operand tokens an instruction hands to [getRegIndex]: the only
    statements of the dispatch that can throw. *)
Definition registerOperands (op : string) : nat :=
  if includes rTypes op then 3
  else if includes (iTypes ++ ["LW"; "SW"]) op then 2
  else if (op =? "PRINT")%string then 1
  else 0.

(** ** Pieces of [step], named *)

(** How [step] ends once the dispatch has completed or thrown. *)
Definition finish (i : Instr) (logPc : Z) (r : Completion Annotation * State)
    : StepResult * State :=
  match r with
  | (Normal note, st') =>
      (Executed (binary i),
       set_pc (pc st' + 4) (log (LogStep logPc (text i) note) st'))
  | (Throw, st') => (StepFalse, set_halted true (log (LogError (pc st')) st'))
  end.

(** The write-back line [if (rd !== 0) this.regs[rd] = res]. *)
Definition writeBack (rd res : Number) (st : State) : State :=
  if negb (js_strict_eq rd (Num 0)) then set_regs (regSet (regs st) rd res) st else st.

(** The value the register form computes from the two operands. *)
Definition aluR (op : string) (v1 v2 : Number) : Number :=
  if (op =? "ADD")%string then js_or (js_add v1 v2) (Num 0)
  else if (op =? "SUB")%string then js_or (js_sub v1 v2) (Num 0)
  else if (op =? "MULT")%string then js_or (js_mul v1 v2) (Num 0)
  else if (op =? "AND")%string then js_or (js_and v1 v2) (Num 0)
  else if (op =? "OR")%string then js_or (js_or v1 v2) (Num 0)
  else if (op =? "SLT")%string then bool_to_Number (js_lt v1 v2)
  else if (op =? "SLL")%string then js_or (js_shl v1 v2) (Num 0)
  else Num 0.

(** The value the immediate form computes. *)
Definition aluI (op : string) (v1 imm : Number) : Number :=
  if (op =? "ADDI")%string then js_or (js_add v1 imm) (Num 0)
  else if (op =? "SLTI")%string then bool_to_Number (js_lt v1 imm)
  else Num 0.

(** The current value of the register a token names, as a Number. *)
Definition operand (st : State) (token : string) : Number :=
  ToNumber (regGet (regs st) (regIndex token)).

(** The effective address of a load or store. *)
Definition effectiveAddress (st : State) (parts : list string) (base : string) : Number :=
  js_add (operand st base) (parseInt (parts !! 3%nat)).

(** ** What [loadProgram] keeps *)

(** The test [loadProgram] applies to a trimmed line. *)
Definition accepted (cleanLine : string) : bool :=
  negb (cleanLine =? "")%string && negb (startsWith "#" cleanLine).

(** The lines that [loadProgram] keeps, trimmed, in order. *)
Definition cleanLines (txt : string) : list string :=
  filter (fun c => accepted c = true) (trim <$> split "010" txt).

(** The records for the accepted lines, from address [a] on. *)
Fixpoint assembleFrom (fakeBinary : string -> string) (a : Z) (l : list string)
    : list Instr :=
  match l with
  | [] => []
  | c :: l' => mkInstr a c (fakeBinary c) :: assembleFrom fakeBinary (a + 4) l'
  end.

(** ** Sequences of calls *)

(** A call made on the object from outside. *)
Inductive Call : Type :=
  | CallLoadProgram (txt : string)
  | CallStep.

Definition perform (load : string -> State -> State)
    (step : State -> StepResult * State) (st : State) (c : Call) : State :=
  match c with
  | CallLoadProgram txt => load txt st
  | CallStep => (step st).2
  end.

(** The object after a sequence of calls on a newly constructed simulator. *)
Definition history (load : string -> State -> State)
    (step : State -> StepResult * State) (calls : list Call) : State :=
  fold_left (perform load step) calls new_RISCV_Simulator.

(** ** Comparing the two files *)

(** Two instruction lists that differ at most in the cosmetic [binary]. *)
Definition sameProgram (a b : list Instr) : Prop :=
  Forall2 (fun i j => addr i = addr j /\ text i = text j) a b.

(** Two objects that differ at most in the [binary] of their instructions. *)
Record sameMachine (s1 s2 : State) : Prop := mk_sameMachine {
  same_pc : pc s1 = pc s2;
  same_regs : regs s1 = regs s2;
  same_dataMemory : dataMemory s1 = dataMemory s2;
  same_halted : halted s1 = halted s2;
  same_logs : logs s1 = logs s2;
  same_program : sameProgram (instrMemory s1) (instrMemory s2)
}.

(** ** Programs used as concrete inputs *)

(** A program text from its lines. *)
Definition program (lines : list string) : string :=
  String.concat (String "010" EmptyString) lines.

(** A new simulator of the later file with a program loaded. *)
Definition fresh (txt : string) : State := Part000.loadProgram txt new_RISCV_Simulator.

(** The first two example programs of the later file, shortened. *)
Definition scenarioA : string :=
  program ["# Teste 1"; "ADDI x1, x0, 15"; "ADDI x2, x0, 25"; "ADD x3, x1, x2";
           "SUB x4, x2, x1"; "MULT x5, x1, x2"; "PRINT x3"].

Definition scenarioB : string :=
  program ["ADDI x1, x0, 99"; "ADDI x2, x0, 0"; "SW x1, x2, 4"; "LW x3, x2, 4";
           "ADDI x4, x3, 1"].

(** A mnemonic the dispatch does not know. *)
Definition branchProgram : string := program ["BEQ x1, x2, 8"; "ADDI x1, x0, 1"].

(** A write aimed at register 0. *)
Definition writeToZero : string := program ["ADDI x1, x0, 7"; "ADD x0, x1, x1"].

(** A product beyond 2^53. *)
Definition largeProduct : string :=
  program ["ADDI x1, x0, 2147483647"; "MULT x2, x1, x1"].

(** A shift by 33. *)
Definition shiftProgram : string :=
  program ["ADDI x1, x0, 3"; "ADDI x2, x0, 33"; "SLL x3, x1, x2"].

(** An immediate that is no number. *)
Definition badImmediate : string := program ["ADDI x1, x0, abc"].

(** Register tokens beyond x31. *)
Definition farRegister : string := program ["ADDI x1, x0, 5"; "ADD x99, x1, x77"].

(** ** The Run button *)

(** The callback that the click handler of [btn-run] hands to [setInterval],
    the same in both files up to the alert: it acts on the simulator and on
    the handler's local [steps]; the flag tells whether the interval stays
    armed ([false] is [clearInterval]).  [updateGUI] only renders. *)
Definition runTick (step : State -> StepResult * State) (st : State) (steps : Z)
    : State * Z * bool :=
  let '(result, st') := step st in
  if succeeded result && (steps <? 1000) then (st', steps + 1, true)
  else (st', steps, false).

(** The invocations of that callback after one click, as long as the
    interval is armed and nothing else touches the simulator in between.
    The result is the number of invocations made and the simulator they
    leave; [None] when [fuel] invocations did not clear the interval. *)
Fixpoint runLoop (step : State -> StepResult * State) (fuel : nat)
    (st : State) (steps : Z) : option (nat * State) :=
  match fuel with
  | O => None
  | S fuel' =>
      let '(st', steps', armed) := runTick step st steps in
      if armed then
        match runLoop step fuel' st' steps' with
        | Some (k, st'') => Some (S k, st'')
        | None => None
        end
      else Some (1%nat, st')
  end.

(** ** Vocabulary of the further properties *)

(** The characters [decode] treats as separators. *)
Definition isSeparator (c : ascii) : bool :=
  isWhiteSpace c || Ascii.eqb c "," || Ascii.eqb c "(" || Ascii.eqb c ")".

(** The characters of a string. *)
Definition chars (s : string) : list ascii := list_ascii_of_string s.

(** The value of a string of decimal digits, most significant first. *)
Definition decimalValue (s : string) : Z :=
  fold_left (fun acc c => 10 * acc + (Z.of_N (N_of_ascii c) - 48)) (chars s) 0.

(** What a stored word can be: a signed 32-bit integer, or [undefined] when
    the source register of the store was out of range. *)
Definition wordOrUndefined (v : Value) : Prop :=
  v = Undefined \/ exists z, v = VNum (Num z) /\ int32 z.

(** A program in which every instruction has the register tokens its
    mnemonic needs. *)
Definition wellFormedLine (c : string) : Prop :=
  (registerOperands (toUpperCase (hd "" (decode c))) < length (decode c))%nat.

(** Two programs over the first four tokens of an instruction. *)
Definition commented : string :=
  program ["ADDI x1, x0, 15   # x1 = 15"; "ADD x3, x1, x1  # x3 = 30"].
Definition uncommented : string :=
  program ["ADDI x1, x0, 15"; "ADD x3, x1, x1"].

(** An instruction that lacks its second source register. *)
Definition truncatedProgram : string := program ["ADDI x1, x0, 5"; "ADD x2, x1"].

(** The third example program of the later file, shortened. *)
Definition scenarioLogic : string :=
  program ["ADDI x1, x0, 10"; "ADDI x2, x0, 20"; "SLT x3, x1, x2"; "SLT x4, x2, x1";
           "AND x5, x3, x4"; "OR x6, x3, x4"; "PRINT x6"].


(** A text with no instruction. *)
Definition commentsOnly : string := program ["# nothing to run"; "   "; ""; "#"].

(** The mathematical result of the register forms other than MULT and SLL,
    on two signed 32-bit operands. *)
Definition exactR (op : string) (v1 v2 : Z) : Z :=
  if (op =? "ADD")%string then wrap32 (v1 + v2)
  else if (op =? "SUB")%string then wrap32 (v1 - v2)
  else if (op =? "AND")%string then Z.land v1 v2
  else if (op =? "OR")%string then Z.lor v1 v2
  else if (op =? "SLT")%string then (if v1 <? v2 then 1 else 0)
  else 0.

(** The mathematical result of the immediate forms. *)
Definition exactI (op : string) (v1 imm : Z) : Z :=
  if (op =? "ADDI")%string then wrap32 (v1 + imm)
  else if (op =? "SLTI")%string then (if v1 <? imm then 1 else 0)
  else 0.


(** The two prefix tests of [parseInt], named. *)
Definition signOf (s : string) : bool * string :=
  match s with
  | String "-" r => (true, r)
  | String "+" r => (false, r)
  | _ => (false, s)
  end.

Definition radixOf (s : string) : Z * string :=
  match s with
  | String "0" (String "x" r) => (16, r)
  | String "0" (String "X" r) => (16, r)
  | _ => (10, s)
  end.

(** An immediate below zero. *)
Definition negativeImmediate : string :=
  program ["ADDI x1, x0, 5"; "ADDI x2, x1, -12"].

(** A character that is no comma and no parenthesis. *)
Definition plain (c : ascii) : Prop :=
  Ascii.eqb c "," = false /\ Ascii.eqb c "(" = false /\ Ascii.eqb c ")" = false.

(** The fixed part of the cosmetic bit pattern. *)
Definition binaryPrefix : string := "??????? ????? ????? ??? ".

(** A string of seven binary digits. *)
Definition sevenBits (s : string) : Prop :=
  String.length s = 7%nat
  /\ Forall (fun c => c = "0"%char \/ c = "1"%char) (chars s).

(** A store and a load whose offsets are no numbers. *)
Definition badOffsets : string :=
  program ["ADDI x1, x0, 42"; "SW x1, x0, here"; "LW x2, x0, there"].

(** A store that lacks its base register. *)
Definition truncatedStore : string := program ["ADDI x1, x0, 7"; "SW x1"].

(** An instruction with an out-of-range register token that lacks an
    operand. *)
Definition farRegisterTruncated : string := program ["ADD x99, x1"].

(** A register form with a source beyond x31. *)
Definition farSource : string :=
  program ["ADDI x1, x0, 5"; "OR x2, x1, x77"; "ADD x3, x1, x77"].

(** The value a register read yields, when it is one. *)
Definition asWord (v : Value) : option Z :=
  match v with
  | VNum (Num z) => Some z
  | _ => None
  end.

(** What the register forms leave in the destination when a source register
    is out of range ([None]): 0 for the arithmetic forms and the comparison,
    and for the bit operations the result with 0 in place of the missing
    operand (AND: 0; OR: the other operand; SLL: the first operand shifted by
    0, or 0 shifted). *)
Definition defaultedR (op : string) (o1 o2 : option Z) : Z :=
  if (op =? "OR")%string then Z.lor (default 0 o1) (default 0 o2)
  else if (op =? "SLL")%string then
    match o2 with
    | None => default 0 o1
    | Some _ => 0
    end
  else 0.

(** * Properties *)

(** ** Unfolding the statements *)

Ltac unfold_M :=
  repeat progress
    unfold mbind, M_bind, mret, M_ret, getRegIndex, ScriptJs.includesParen, throw,
      readReg, writeReg, readMem, writeMem, readPc, writePc, logM,
      updateMemoryView in *.

Lemma includes_cons (x y : string) (l : list string) :
  includes (y :: l) x = (x =? y)%string || includes l x.
Proof. reflexivity. Qed.

Lemma includes_nil (x : string) : includes [] x = false.
Proof. reflexivity. Qed.

(** Case analysis on the mnemonic: one case per mnemonic the simulator
    knows, and a last one where every comparison fails. *)
Ltac case_op op :=
  repeat rewrite includes_cons; repeat rewrite includes_nil;
  repeat match goal with
    | |- context [String.eqb op ?m] =>
        destruct (String.eqb_spec op m) as [-> | ?];
        [ repeat match goal with
            | |- context [String.eqb ?a ?b] =>
                let v := eval vm_compute in (String.eqb a b) in
                change (String.eqb a b) with v
            end
        | ]
    end;
  cbn [orb andb negb].

(** Case analysis on the operand tokens a statement reads and on its guard
    [rd !== 0]. *)
Ltac case_parts parts :=
  repeat match goal with
    | |- context [parts !! ?k] => destruct (parts !! k) eqn:?
    end;
  unfold_M; cbn [orb andb negb fst snd];
  repeat match goal with
    | |- context [js_strict_eq ?a ?b] => destruct (js_strict_eq a b) eqn:?
    end;
  cbn [orb andb negb fst snd].

(** The two files dispatch differently (one branch for the register and
    immediate forms with successive [if]s in script.js, two branches with
    [else if] chains in the later file) and compute the same. *)
Lemma execute_agree (op : string) (parts : list string) (st : State) :
  ScriptJs.execute op parts st = Part000.execute op parts st.
Proof.
  unfold ScriptJs.execute, Part000.execute.
  case_op op; case_parts parts; reflexivity.
Qed.

Lemma step_agree (st : State) : ScriptJs.step st = Part000.step st.
Proof.
  unfold ScriptJs.step, Part000.step, ScriptJs.tryBlock, Part000.tryBlock.
  destruct (halted st); [reflexivity | ].
  destruct (fetch st) as [i | ]; [ | reflexivity].
  unfold mbind, M_bind. rewrite execute_agree. reflexivity.
Qed.

(** ** Signed 32-bit values *)

Lemma wrap32_int32 (z : Z) : int32 (wrap32 z).
Proof.
  unfold int32, wrap32.
  pose proof (Z.mod_pos_bound (z + 2 ^ 31) (2 ^ 32) eq_refl). lia.
Qed.

Lemma wrap32_id (z : Z) : int32 z -> wrap32 z = z.
Proof.
  unfold int32, wrap32. intros H.
  rewrite Z.mod_small by lia. lia.
Qed.

Lemma ToInt32_int32 (n : Number) : int32 (ToInt32 n).
Proof.
  destruct n; simpl; try apply wrap32_int32; unfold int32; lia.
Qed.

(** [x | 0] is ToInt32. *)
Lemma js_or_zero (n : Number) : js_or n (Num 0) = Num (ToInt32 n).
Proof.
  unfold js_or. f_equal.
  change (ToInt32 (Num 0)) with 0. apply Z.lor_0_r.
Qed.

(** A sum or product below 2^53 in magnitude is exact. *)
Lemma roundToDouble_small (z : Z) : Z.abs z < 2 ^ 53 -> roundToDouble z = Num z.
Proof.
  intros H. unfold roundToDouble.
  destruct (Z.ltb_spec (Z.abs z) (2 ^ 53)); [reflexivity | lia].
Qed.

(** ** Well-formed register files *)

Lemma regs_ok_reset : regs_ok (replicate 32 0).
Proof.
  split; [reflexivity | ].
  apply Forall_replicate. unfold int32. lia.
Qed.

Lemma regs_ok_regSet (rs : list Z) (i v : Number) :
  regs_ok rs -> regs_ok (regSet rs i v).
Proof.
  intros [Hlen Hall]. unfold regSet.
  destruct i as [ | z | b]; try (split; assumption).
  destruct (0 <=? z); [ | split; assumption].
  split.
  - rewrite length_insert. exact Hlen.
  - apply Forall_insert; [exact Hall | apply ToInt32_int32].
Qed.

Lemma regGet_out_of_range (rs : list Z) (z : Z) :
  regs_ok rs -> 32 <= z -> regGet rs (Num z) = Undefined.
Proof.
  intros [Hlen _] Hz. unfold regGet.
  destruct (0 <=? z); [ | reflexivity].
  rewrite (proj2 (lookup_ge_None rs (Z.to_nat z))); [reflexivity | lia].
Qed.

Lemma regSet_out_of_range (rs : list Z) (z : Z) (v : Number) :
  regs_ok rs -> 32 <= z -> regSet rs (Num z) v = rs.
Proof.
  intros [Hlen _] Hz. unfold regSet.
  destruct (0 <=? z); [ | reflexivity].
  apply list_insert_ge. lia.
Qed.

(** A write whose index passed the test [rd !== 0] leaves element 0 alone. *)
Lemma regSet_keeps_x0 (rs : list Z) (rd v : Number) :
  js_strict_eq rd (Num 0) = false ->
  regSet rs rd v !! 0%nat = rs !! 0%nat.
Proof.
  intros H. unfold regSet.
  destruct rd as [ | z | b]; try reflexivity.
  simpl in H. apply Z.eqb_neq in H.
  destruct (Z.leb_spec 0 z); [ | reflexivity].
  apply list_lookup_insert_ne. lia.
Qed.

(** ** What the dispatch can do to the object *)

Ltac effect_case :=
  eexists _, _; split; [reflexivity | ]; simpl;
  repeat (split; [reflexivity | ]);
  split;
  [ first
      [ left; reflexivity
      | right; eexists _, _; split; [ | reflexivity];
        eassumption ]
  | intros; first [discriminate | reflexivity] ].

(** [execute] never touches [pc], [halted], [instrMemory] or [logs]; it
    writes at most one register, through the guard [rd !== 0]; and when it
    throws it has changed nothing. *)
Lemma execute_effect (op : string) (parts : list string) (st : State) :
  exists c st', Part000.execute op parts st = (c, st')
    /\ pc st' = pc st /\ halted st' = halted st
    /\ instrMemory st' = instrMemory st /\ logs st' = logs st
    /\ (regs st' = regs st \/
        exists rd v, js_strict_eq rd (Num 0) = false /\ regs st' = regSet (regs st) rd v)
    /\ (c = Throw -> st' = st).
Proof.
  unfold Part000.execute.
  case_op op; case_parts parts; effect_case.
Qed.

(** [execute] does not look at the instruction list. *)
Lemma execute_instrMemory (op : string) (parts : list string)
    (im : list Instr) (st : State) :
  Part000.execute op parts (set_instrMemory im st) =
    (fst (Part000.execute op parts st),
     set_instrMemory im (snd (Part000.execute op parts st))).
Proof.
  unfold Part000.execute. destruct st.
  case_op op; case_parts parts; reflexivity.
Qed.

(** ** One step *)

(** [split] always yields a first piece, so [parts[0].toUpperCase()], which
    stands outside [try], cannot throw. *)
Lemma splitWsFrom_nonempty (inws : bool) (cur s : string) :
  splitWsFrom inws cur s <> [].
Proof.
  revert inws cur. induction s as [ | c s IH]; intros inws cur; simpl.
  - discriminate.
  - destruct (isWhiteSpace c); [destruct inws | ]; try apply IH; discriminate.
Qed.

Lemma decode_nonempty (txt : string) : decode txt <> [].
Proof. apply splitWsFrom_nonempty. Qed.

Lemma step_running (st : State) (i : Instr) :
  halted st = false -> fetch st = Some i ->
  Part000.step st = finish i (pc st) (Part000.execute (opOf i) (partsOf i) st).
Proof.
  intros Hh Hf. unfold Part000.step, Part000.tryBlock, finish, opOf, partsOf.
  rewrite Hh, Hf. unfold_M.
  destruct (Part000.execute _ _ st) as [[note | ] st']; reflexivity.
Qed.

(** What any call of [step] does to the fields that the dispatch does not
    own, and to the register file. *)
Lemma step_effect (st : State) :
  exists r st', Part000.step st = (r, st')
    /\ instrMemory st' = instrMemory st
    /\ pc st' = (if succeeded r then pc st + 4 else pc st)
    /\ halted st' = negb (succeeded r)
    /\ (succeeded r = true -> halted st = false)
    /\ (regs st' = regs st \/
        exists rd v, js_strict_eq rd (Num 0) = false /\ regs st' = regSet (regs st) rd v).
Proof.
  destruct (halted st) eqn:Hh.
  { exists StepFalse, st. unfold Part000.step. rewrite Hh. simpl.
    repeat split; auto; discriminate. }
  destruct (fetch st) as [i | ] eqn:Hf.
  - rewrite (step_running st i Hh Hf).
    destruct (execute_effect (opOf i) (partsOf i) st)
      as (c & st' & -> & Hpc & Hhalt & Him & Hlog & Hregs & Hthrow).
    destruct c as [note | ]; simpl; eexists _, _; (split; [reflexivity | ]); simpl.
    + rewrite Hpc, Hhalt, Hh. repeat split; auto.
    + rewrite Hpc. repeat split; auto; discriminate.
  - unfold Part000.step. rewrite Hh, Hf. simpl.
    eexists _, _; split; [reflexivity | ]; simpl.
    repeat split; auto; discriminate.
Qed.

Lemma step_regs_ok (st : State) :
  regs_ok (regs st) -> regs_ok (regs (Part000.step st).2).
Proof.
  intros Hok.
  destruct (step_effect st) as (r & st' & -> & _ & _ & _ & _ & Hregs). simpl.
  destruct Hregs as [-> | (rd & v & _ & ->)]; [exact Hok | ].
  apply regs_ok_regSet, Hok.
Qed.

Lemma step_keeps_x0 (st : State) :
  regs (Part000.step st).2 !! 0%nat = regs st !! 0%nat.
Proof.
  destruct (step_effect st) as (r & st' & -> & _ & _ & _ & _ & Hregs). simpl.
  destruct Hregs as [-> | (rd & v & Hrd & ->)]; [reflexivity | ].
  apply regSet_keeps_x0, Hrd.
Qed.

(** ** Loading a program *)

Lemma fold_loadLine (f : string -> string) (lines : list string) (st : State) (a : Z) :
  fold_left (loadLine f) lines (st, a) =
    (set_instrMemory
       (instrMemory st ++
        assembleFrom f a (filter (fun c => accepted c = true) (trim <$> lines))) st,
     a + 4 * Z.of_nat (length (filter (fun c => accepted c = true) (trim <$> lines)))).
Proof.
  revert st a. induction lines as [ | line lines IH]; intros st a.
  - simpl. rewrite app_nil_r. destruct st. f_equal. lia.
  - cbn [fold_left fmap list_fmap]. unfold loadLine at 2. fold (accepted (trim line)).
    rewrite filter_cons.
    destruct (decide (accepted (trim line) = true)) as [Hacc | Hacc].
    + rewrite Hacc, IH. cbn [assembleFrom length instrMemory set_instrMemory].
      rewrite <- app_assoc. destruct st. simpl. f_equal. lia.
    + apply not_true_is_false in Hacc. rewrite Hacc. apply IH.
Qed.

Lemma assembleFrom_imap (f : string -> string) (a : Z) (l : list string) :
  assembleFrom f a l = imap (fun k c => mkInstr (a + 4 * Z.of_nat k) c (f c)) l.
Proof.
  revert a. induction l as [ | c l IH]; intros a; [reflexivity | ].
  cbn [assembleFrom imap]. f_equal.
  - f_equal. lia.
  - rewrite IH. apply imap_ext. intros k x _. simpl. f_equal. lia.
Qed.

(** [loadProgram] in closed form, whatever the object held before. *)
Lemma loadProgramWith_spec (f : string -> string) (txt : string) (st0 : State) :
  loadProgramWith f txt st0 =
    mkState 0 (replicate 32 0)
      (imap (fun k c => mkInstr (4 * Z.of_nat k) c (f c)) (cleanLines txt))
      ∅
      (match cleanLines txt with [] => true | _ => false end)
      [LogLoaded].
Proof.
  unfold loadProgramWith. rewrite fold_loadLine.
  cbn [reset instrMemory set_logs set_halted set_dataMemory set_instrMemory
       set_regs set_pc app pc regs dataMemory halted logs].
  rewrite assembleFrom_imap. fold (cleanLines txt).
  destruct (cleanLines txt) as [ | c l]; reflexivity.
Qed.

(** ** The dispatch, family by family *)

Ltac concrete_op :=
  repeat rewrite includes_cons; repeat rewrite includes_nil;
  repeat match goal with
    | |- context [String.eqb ?a ?b] =>
        let v := eval vm_compute in (String.eqb a b) in
        change (String.eqb a b) with v
    end;
  cbn [orb andb negb].

Lemma execute_rType (op : string) (parts : list string) (t1 t2 t3 : string) (st : State) :
  includes rTypes op = true ->
  parts !! 1%nat = Some t1 -> parts !! 2%nat = Some t2 -> parts !! 3%nat = Some t3 ->
  Part000.execute op parts st =
    (Normal NoNote,
     writeBack (regIndex t1) (aluR op (operand st t2) (operand st t3)) st).
Proof.
  intros Hop H1 H2 H3. unfold Part000.execute, writeBack, operand.
  fold rTypes. rewrite Hop, H1, H2, H3. unfold_M.
  destruct (negb (js_strict_eq (regIndex t1) (Num 0))); reflexivity.
Qed.

Lemma includes_iTypes_not_rTypes (op : string) :
  includes iTypes op = true -> includes rTypes op = false.
Proof.
  unfold iTypes, rTypes. intros H.
  repeat rewrite includes_cons in H. rewrite includes_nil in H.
  destruct (String.eqb_spec op "ADDI") as [E | _]; [subst op; reflexivity | ].
  destruct (String.eqb_spec op "SLTI") as [E | _]; [subst op; reflexivity | discriminate].
Qed.

Lemma execute_iType (op : string) (parts : list string) (t1 t2 : string) (st : State) :
  includes iTypes op = true ->
  parts !! 1%nat = Some t1 -> parts !! 2%nat = Some t2 ->
  Part000.execute op parts st =
    (Normal NoNote,
     writeBack (regIndex t1) (aluI op (operand st t2) (parseInt (parts !! 3%nat))) st).
Proof.
  intros Hop H1 H2. unfold Part000.execute, writeBack, operand.
  fold rTypes iTypes. rewrite (includes_iTypes_not_rTypes op Hop), Hop, H1, H2.
  unfold_M.
  destruct (negb (js_strict_eq (regIndex t1) (Num 0))); reflexivity.
Qed.

Lemma execute_LW (parts : list string) (t1 t2 : string) (st : State) :
  parts !! 1%nat = Some t1 -> parts !! 2%nat = Some t2 ->
  let a := effectiveAddress st parts t2 in
  let val := orZero (memGet (dataMemory st) a) in
  Part000.execute "LW" parts st =
    (Normal (LoadNote val a), writeBack (regIndex t1) (ToNumber val) st).
Proof.
  intros H1 H2. unfold Part000.execute, writeBack, effectiveAddress, operand.
  concrete_op. rewrite H1, H2. unfold_M. cbn zeta.
  destruct (negb (js_strict_eq (regIndex t1) (Num 0))); reflexivity.
Qed.

Lemma execute_SW (parts : list string) (t1 t2 : string) (st : State) :
  parts !! 1%nat = Some t1 -> parts !! 2%nat = Some t2 ->
  let a := effectiveAddress st parts t2 in
  let v := regGet (regs st) (regIndex t1) in
  Part000.execute "SW" parts st =
    (Normal (StoreNote v a), set_dataMemory (<[a := v]> (dataMemory st)) st).
Proof.
  intros H1 H2. unfold Part000.execute, effectiveAddress, operand.
  concrete_op. rewrite H1, H2. unfold_M. reflexivity.
Qed.

Lemma execute_PRINT (parts : list string) (t1 : string) (st : State) :
  parts !! 1%nat = Some t1 ->
  Part000.execute "PRINT" parts st =
    (Normal (PrintNote (regGet (regs st) (regIndex t1))), st).
Proof.
  intros H1. unfold Part000.execute.
  concrete_op. rewrite H1. unfold_M. reflexivity.
Qed.

Lemma execute_unknown (op : string) (parts : list string) (st : State) :
  includes mnemonics op = false ->
  Part000.execute op parts st = (Normal NoNote, st).
Proof.
  intros H. unfold mnemonics, rTypes, iTypes in H. cbn [app] in H.
  repeat rewrite includes_cons in H.
  repeat (apply orb_false_elim in H; destruct H as [? H]).
  unfold Part000.execute.
  repeat rewrite includes_cons; repeat rewrite includes_nil.
  repeat match goal with
    | E : String.eqb _ _ = false |- _ => rewrite E; clear E
    end.
  reflexivity.
Qed.

(** [execute] throws exactly when one of those tokens is missing, and then
    before it has changed anything. *)
Lemma execute_throws (op : string) (parts : list string) (st : State) :
  parts <> [] ->
  (length parts <= registerOperands op)%nat ->
  Part000.execute op parts st = (Throw, st).
Proof.
  unfold registerOperands, rTypes, iTypes, Part000.execute. cbn [app].
  case_op op; intros Hne H;
    destruct parts as [ | p0 [ | p1 [ | p2 [ | p3 rest]]]]; simpl in H;
    try lia; try congruence; reflexivity.
Qed.

Lemma execute_completes (op : string) (parts : list string) (st : State) :
  (registerOperands op < length parts)%nat ->
  exists note st', Part000.execute op parts st = (Normal note, st').
Proof.
  unfold registerOperands, rTypes, iTypes, Part000.execute. cbn [app].
  case_op op; intros H;
    destruct parts as [ | p0 [ | p1 [ | p2 [ | p3 rest]]]]; simpl in H; try lia;
    unfold_M; cbn [lookup list_lookup];
    repeat match goal with
      | |- context [js_strict_eq ?a ?b] => destruct (js_strict_eq a b)
      end;
    cbn [negb]; eexists _, _; reflexivity.
Qed.

(** ** Runs *)

Lemma run_ext (f g : State -> StepResult * State) (n : nat) (st : State) :
  (forall s, f s = g s) -> run f n st = run g n st.
Proof.
  intros H. revert st. induction n as [ | n IH]; intros st; [reflexivity | ].
  simpl. rewrite H. destruct (g st) as [r st1]. rewrite IH. reflexivity.
Qed.

(** ** Unrecognized mnemonics *)

(** C5. A step that fetches an instruction whose mnemonic is none of ADD, SUB,
    AND, OR, SLT, MULT, SLL, ADDI, SLTI, LW, SW, PRINT succeeds, in both
    files: the object it leaves differs from the one it found by the program
    counter, which is 4 higher, and by the generic trace line appended to
    [logs]; registers, data memory and [halted] (false) are as before. *)
Theorem unrecognized_mnemonic_is_noop (st : State) (i : Instr) :
  halted st = false ->
  fetch st = Some i ->
  includes mnemonics (opOf i) = false ->
  let after := set_pc (pc st + 4) (log (LogStep (pc st) (text i) NoNote) st) in
  Part000.step st = (Executed (binary i), after)
  /\ ScriptJs.step st = (Executed (binary i), after)
  /\ regs after = regs st
  /\ dataMemory after = dataMemory st
  /\ halted after = false
  /\ pc after = pc st + 4
  /\ logs after = (logs st ++ [LogStep (pc st) (text i) NoNote])%list.
Proof.
  intros Hh Hf Hop after.
  assert (Part000.step st = (Executed (binary i), after)) as E.
  { rewrite (step_running st i Hh Hf), (execute_unknown _ _ _ Hop). reflexivity. }
  rewrite step_agree, E. repeat split. exact Hh.
Qed.

Lemma unrecognized_mnemonic_is_noop_witness :
  let st := fresh branchProgram in
  let i := mkInstr 0 "BEQ x1, x2, 8" "??????? ????? ????? ??? 0000000" in
  Part000.step st =
    (Executed (binary i), set_pc (pc st + 4) (log (LogStep (pc st) (text i) NoNote) st)).
Proof.
  intros st i.
  refine (proj1 (unrecognized_mnemonic_is_noop st i _ _ _)); vm_compute; reflexivity.
Defined.

(** ** The program counter *)

Lemma run_pc (n : nat) (st : State) :
  pc (run Part000.step n st).2 =
    pc st + 4 * Z.of_nat (length (filter (fun r => succeeded r = true) (run Part000.step n st).1)).
Proof.
  revert st. induction n as [ | n IH]; intros st; [simpl; lia | ].
  simpl.
  destruct (step_effect st) as (r & st1 & -> & _ & Hpc & _).
  specialize (IH st1). destruct (run Part000.step n st1) as [rs st2].
  cbn [fst snd] in *. rewrite IH, Hpc, filter_cons.
  destruct r as [ | b].
  - rewrite decide_False by discriminate. cbn [succeeded]. lia.
  - rewrite decide_True by reflexivity. cbn [succeeded length]. lia.
Qed.

Lemma filter_all_succeeded (rs : list StepResult) :
  forallb succeeded rs = true ->
  filter (fun r => succeeded r = true) rs = rs.
Proof.
  induction rs as [ | r rs IH]; [reflexivity | ].
  simpl. intros H. apply andb_true_iff in H as [Hr Hrs].
  rewrite filter_cons, decide_True by exact Hr. rewrite IH by exact Hrs. reflexivity.
Qed.

Lemma run_length (f : State -> StepResult * State) (n : nat) (st : State) :
  length (run f n st).1 = n.
Proof.
  revert st. induction n as [ | n IH]; intros st; [reflexivity | ].
  simpl. destruct (f st) as [r st1]. specialize (IH st1).
  destruct (run f n st1) as [rs st2]. simpl in *. rewrite IH. reflexivity.
Qed.

Lemma loadProgram_pc (f : string -> string) (txt : string) (st0 : State) :
  pc (loadProgramWith f txt st0) = 0.
Proof. rewrite loadProgramWith_spec. reflexivity. Qed.

(** C4. In both files, after a program is loaded and [step] is called [n]
    times, the program counter is 4 times the number of calls that returned
    a success result: a successful step (whatever its mnemonic) adds 4, a
    step that returns false leaves it.  Hence 4n after n successful steps. *)
Theorem pc_after_successful_steps (txt : string) (st0 : State) (n : nat) :
  let r1 := run Part000.step n (Part000.loadProgram txt st0) in
  let r2 := run ScriptJs.step n (ScriptJs.loadProgram txt st0) in
  pc r1.2 = 4 * Z.of_nat (length (filter (fun r => succeeded r = true) r1.1))
  /\ pc r2.2 = 4 * Z.of_nat (length (filter (fun r => succeeded r = true) r2.1))
  /\ (forallb succeeded r1.1 = true -> pc r1.2 = 4 * Z.of_nat n)
  /\ (forallb succeeded r2.1 = true -> pc r2.2 = 4 * Z.of_nat n).
Proof.
  intros r1 r2.
  assert (pc r1.2 = 4 * Z.of_nat (length (filter (fun r => succeeded r = true) r1.1))) as E1.
  { unfold r1. rewrite run_pc. unfold Part000.loadProgram.
    rewrite loadProgram_pc. lia. }
  assert (pc r2.2 = 4 * Z.of_nat (length (filter (fun r => succeeded r = true) r2.1))) as E2.
  { unfold r2. rewrite (run_ext _ _ _ _ step_agree), run_pc.
    unfold ScriptJs.loadProgram. rewrite loadProgram_pc. lia. }
  repeat split; try assumption; intros H.
  - rewrite E1, (filter_all_succeeded _ H). unfold r1. rewrite run_length. reflexivity.
  - rewrite E2, (filter_all_succeeded _ H). unfold r2. rewrite run_length. reflexivity.
Qed.

Lemma pc_after_successful_steps_witness :
  pc (run Part000.step 5 (Part000.loadProgram scenarioA new_RISCV_Simulator)).2
    = 4 * Z.of_nat 5
  /\ pc (run ScriptJs.step 5 (ScriptJs.loadProgram scenarioA new_RISCV_Simulator)).2
    = 4 * Z.of_nat 5.
Proof.
  pose proof (pc_after_successful_steps scenarioA new_RISCV_Simulator 5) as (_ & _ & H1 & H2).
  split; [apply H1 | apply H2]; vm_compute; reflexivity.
Defined.

(** ** Loading *)

(** C7. Whatever the object held, [loadProgram(text)] leaves it with the
    registers zeroed, the data memory empty, the program counter 0 and the
    trace holding only the message of this load.  The lines of [text] are
    taken in order and trimmed; one that is then empty or starts with '#' is
    dropped; the k-th line kept (from 0) becomes the record at address 4k,
    with the trimmed line as its text.  [halted] is false exactly when some
    line was kept. *)
Theorem loadProgram_spec (txt : string) (st0 : State) :
  let st := Part000.loadProgram txt st0 in
  regs st = replicate 32 0
  /\ dataMemory st = ∅
  /\ pc st = 0
  /\ logs st = [LogLoaded]
  /\ instrMemory st =
       imap (fun k c => mkInstr (4 * Z.of_nat k) c (Part000.generateFakeBinary c))
         (filter (fun c => accepted c = true) (trim <$> split "010" txt))
  /\ (halted st = false <->
        filter (fun c => accepted c = true) (trim <$> split "010" txt) <> []).
Proof.
  unfold Part000.loadProgram. rewrite loadProgramWith_spec. fold (cleanLines txt).
  cbn [regs dataMemory pc logs instrMemory halted].
  repeat split; try reflexivity.
  - destruct (cleanLines txt); [discriminate | discriminate].
  - destruct (cleanLines txt); [congruence | reflexivity].
Qed.

(** ** Register 0 *)

Lemma history_invariant (P : State -> Prop) (f : string -> string) (calls : list Call) :
  P new_RISCV_Simulator ->
  (forall txt st, P (loadProgramWith f txt st)) ->
  (forall st, P st -> P (Part000.step st).2) ->
  P (history (loadProgramWith f) Part000.step calls).
Proof.
  intros Hnew Hload Hstep. unfold history.
  generalize new_RISCV_Simulator Hnew.
  induction calls as [ | c calls IH]; intros st Hst; [exact Hst | ].
  simpl. apply IH. destruct c as [txt | ]; simpl; auto.
Qed.

Lemma history_ScriptJs (calls : list Call) :
  history ScriptJs.loadProgram ScriptJs.step calls =
  history (loadProgramWith ScriptJs.generateFakeBinary) Part000.step calls.
Proof.
  unfold history. generalize new_RISCV_Simulator.
  induction calls as [ | c calls IH]; intros st; [reflexivity | ].
  simpl. rewrite IH. f_equal. destruct c; simpl; [reflexivity | ].
  rewrite step_agree. reflexivity.
Qed.

Lemma history_x0 (f : string -> string) (calls : list Call) :
  regs (history (loadProgramWith f) Part000.step calls) !! 0%nat = Some 0.
Proof.
  apply (history_invariant (fun st => regs st !! 0%nat = Some 0)).
  - reflexivity.
  - intros txt st. rewrite loadProgramWith_spec. reflexivity.
  - intros st H. rewrite step_keeps_x0. exact H.
Qed.

Lemma history_regs_ok (f : string -> string) (calls : list Call) :
  regs_ok (regs (history (loadProgramWith f) Part000.step calls)).
Proof.
  apply (history_invariant (fun st => regs_ok (regs st))).
  - apply regs_ok_reset.
  - intros txt st. rewrite loadProgramWith_spec. apply regs_ok_reset.
  - intros st H. apply step_regs_ok, H.
Qed.

Lemma regGet_x0 (rs : list Z) : rs !! 0%nat = Some 0 -> regGet rs (Num 0) = VNum (Num 0).
Proof.
  intros H. unfold regGet. change (Z.to_nat 0) with 0%nat.
  cbn [Z.leb Z.compare]. rewrite H. reflexivity.
Qed.

(** A destination token that resolves to register 0 makes the dispatch leave
    registers and data memory as they are, whether it completes or throws. *)
Lemma execute_x0 (op : string) (parts : list string) (t1 : string) (st : State) :
  includes withDestination op = true ->
  parts !! 1%nat = Some t1 ->
  regIndex t1 = Num 0 ->
  regs (Part000.execute op parts st).2 = regs st
  /\ dataMemory (Part000.execute op parts st).2 = dataMemory st.
Proof.
  unfold withDestination, rTypes, iTypes, Part000.execute. cbn [app].
  intros Hop H1 H0. revert Hop.
  case_op op; intros Hop; try discriminate Hop;
    rewrite H1; unfold_M; rewrite H0; cbn [js_strict_eq Z.eqb negb];
    repeat match goal with
      | |- context [parts !! ?k] => destruct (parts !! k)
      end;
    split; reflexivity.
Qed.

(** C3. Register 0 reads 0 after any sequence of [loadProgram] and [step]
    calls on a new simulator, in both files; and a step whose instruction
    has a destination operand (register, immediate or load form) that
    resolves to register 0 leaves every register and the data memory as they
    were. *)
Theorem register_zero_invariant :
  (forall calls : list Call,
     regGet (regs (history Part000.loadProgram Part000.step calls)) (Num 0) = VNum (Num 0)
     /\ regGet (regs (history ScriptJs.loadProgram ScriptJs.step calls)) (Num 0) = VNum (Num 0))
  /\ (forall (st : State) (i : Instr) (t1 : string),
        halted st = false ->
        fetch st = Some i ->
        includes withDestination (opOf i) = true ->
        partsOf i !! 1%nat = Some t1 ->
        regIndex t1 = Num 0 ->
        regs (Part000.step st).2 = regs st
        /\ dataMemory (Part000.step st).2 = dataMemory st
        /\ regs (ScriptJs.step st).2 = regs st
        /\ dataMemory (ScriptJs.step st).2 = dataMemory st).
Proof.
  split.
  - intros calls. split; apply regGet_x0.
    + apply history_x0.
    + rewrite history_ScriptJs. apply history_x0.
  - intros st i t1 Hh Hf Hop H1 H0.
    rewrite step_agree, (step_running st i Hh Hf).
    destruct (execute_x0 (opOf i) (partsOf i) t1 st Hop H1 H0) as [Hr Hm].
    destruct (Part000.execute (opOf i) (partsOf i) st) as [[note | ] st'];
      simpl in *; auto.
Qed.

Lemma register_zero_invariant_witness :
  let st := (Part000.step (fresh writeToZero)).2 in
  regs (Part000.step st).2 = regs st /\ dataMemory (Part000.step st).2 = dataMemory st.
Proof.
  intros st.
  pose proof (proj2 register_zero_invariant st
    (mkInstr 4 "ADD x0, x1, x1" "??????? ????? ????? ??? 0110011") "x0") as H.
  refine (let H' := H _ _ _ _ _ in conj (proj1 H') (proj1 (proj2 H')));
    vm_compute; reflexivity.
Defined.

(** ** Arithmetic on register values *)

Lemma add_value (v1 v2 : Z) :
  int32 v1 -> int32 v2 ->
  aluR "ADD" (Num v1) (Num v2) = Num (wrap32 (v1 + v2)).
Proof.
  intros H1 H2. unfold aluR. concrete_op. rewrite js_or_zero. unfold js_add.
  rewrite roundToDouble_small; [reflexivity | ].
  unfold int32 in *. lia.
Qed.

Lemma sub_value (v1 v2 : Z) :
  int32 v1 -> int32 v2 ->
  aluR "SUB" (Num v1) (Num v2) = Num (wrap32 (v1 - v2)).
Proof.
  intros H1 H2. unfold aluR. concrete_op. rewrite js_or_zero. unfold js_sub, js_add, js_neg.
  rewrite roundToDouble_small; [reflexivity | ].
  unfold int32 in *. lia.
Qed.

(** The immediate form is exact as long as the immediate is a safe integer
    with room for a register value. *)
Lemma addi_value (v1 imm : Z) :
  int32 v1 -> Z.abs imm < 2 ^ 52 ->
  aluI "ADDI" (Num v1) (Num imm) = Num (wrap32 (v1 + imm)).
Proof.
  intros H1 H2. unfold aluI. concrete_op. rewrite js_or_zero. unfold js_add.
  rewrite roundToDouble_small; [reflexivity | ].
  unfold int32 in *. lia.
Qed.

(** The product is the wrapped mathematical product as long as that product
    is below 2^53 in magnitude: [v1 * v2] is a multiplication of doubles. *)
Lemma mult_value (v1 v2 : Z) :
  Z.abs (v1 * v2) < 2 ^ 53 ->
  aluR "MULT" (Num v1) (Num v2) = Num (wrap32 (v1 * v2)).
Proof.
  intros H. unfold aluR. concrete_op. rewrite js_or_zero. unfold js_mul.
  rewrite roundToDouble_small by exact H. reflexivity.
Qed.

(** C2 (where the code departs from it). With 2147483647 in x1, the
    instruction MULT x2, x1, x1 leaves 0 in x2 in both files, while the
    product 2147483647 * 2147483647 reduced to the signed 32-bit range is 1:
    the double product has lost its low bits before [| 0] truncates it. *)
Theorem mult_large_operands_lose_low_bits :
  regs (run Part000.step 2 (Part000.loadProgram largeProduct new_RISCV_Simulator)).2
    !! 1%nat = Some 2147483647
  /\ regs (run Part000.step 2 (Part000.loadProgram largeProduct new_RISCV_Simulator)).2
    !! 2%nat = Some 0
  /\ regs (run ScriptJs.step 2 (ScriptJs.loadProgram largeProduct new_RISCV_Simulator)).2
    !! 2%nat = Some 0
  /\ wrap32 (2147483647 * 2147483647) = 1.
Proof. repeat split; vm_compute; reflexivity. Qed.

(** ** Shifts *)

Lemma wrap32_wrap32 (z : Z) : wrap32 (wrap32 z) = wrap32 z.
Proof. apply wrap32_id, wrap32_int32. Qed.

Lemma land_31 (z : Z) : Z.land (z mod 2 ^ 32) 31 = z mod 32.
Proof.
  change 31 with (Z.ones 5). rewrite Z.land_ones by lia.
  change (2 ^ 5) with 32.
  apply Z.mod_mod_divide. exists (2 ^ 27). reflexivity.
Qed.

Lemma sll_value (v1 v2 : Z) :
  int32 v1 ->
  aluR "SLL" (Num v1) (Num v2) = Num (wrap32 (v1 * 2 ^ (v2 mod 32))).
Proof.
  intros H1. unfold aluR. concrete_op. rewrite js_or_zero.
  unfold js_shl, ToInt32, ToUint32.
  rewrite wrap32_wrap32, (wrap32_id v1 H1), land_31.
  rewrite Z.shiftl_mul_pow2; [reflexivity | ].
  apply Z.mod_pos_bound. lia.
Qed.

Lemma regGet_int32 (rs : list Z) (idx : Number) (v : Z) :
  regs_ok rs -> regGet rs idx = VNum (Num v) -> int32 v.
Proof.
  intros [_ Hall] H. unfold regGet in H.
  destruct idx as [ | z | b]; try discriminate.
  destruct (0 <=? z); [ | discriminate].
  destruct (rs !! Z.to_nat z) as [w | ] eqn:E; [ | discriminate].
  injection H as <-. rewrite Forall_lookup in Hall. exact (Hall _ _ E).
Qed.

Lemma writeBack_register (d : Z) (res : Z) (st : State) :
  0 < d ->
  writeBack (Num d) (Num res) st =
    set_regs (<[Z.to_nat d := wrap32 res]> (regs st)) st.
Proof.
  intros Hd. unfold writeBack, regSet, js_strict_eq.
  destruct (Z.eqb_spec d 0); [lia | ].
  destruct (Z.leb_spec 0 d); [reflexivity | lia].
Qed.

(** The write-back only touches the register file. *)
Lemma writeBack_fields (rd res : Number) (st : State) :
  pc (writeBack rd res st) = pc st
  /\ halted (writeBack rd res st) = halted st
  /\ dataMemory (writeBack rd res st) = dataMemory st
  /\ logs (writeBack rd res st) = logs st
  /\ instrMemory (writeBack rd res st) = instrMemory st.
Proof. unfold writeBack. destruct (negb _); repeat split. Qed.

(** C8. When the instruction at the program counter is SLL rd, rs1, rs2, rs1
    and rs2 hold v1 and v2 and rd is one of the registers 1..31, the step
    succeeds in both files and rd receives v1 * 2^(v2 mod 32) reduced to the
    signed 32-bit range: the shift amount is v2 modulo 32, also for v2 >= 32
    and for negative v2. *)
Theorem sll_shift_amount_modulo_32
    (st : State) (i : Instr) (t1 t2 t3 : string) (d v1 v2 : Z) :
  regs_ok (regs st) ->
  halted st = false ->
  fetch st = Some i ->
  opOf i = "SLL" ->
  partsOf i !! 1%nat = Some t1 ->
  partsOf i !! 2%nat = Some t2 ->
  partsOf i !! 3%nat = Some t3 ->
  regIndex t1 = Num d -> 0 < d < 32 ->
  regGet (regs st) (regIndex t2) = VNum (Num v1) ->
  regGet (regs st) (regIndex t3) = VNum (Num v2) ->
  let shifted := wrap32 (v1 * 2 ^ (v2 mod 32)) in
  let after :=
    set_pc (pc st + 4)
      (log (LogStep (pc st) (text i) NoNote)
         (set_regs (<[Z.to_nat d := shifted]> (regs st)) st)) in
  Part000.step st = (Executed (binary i), after)
  /\ ScriptJs.step st = (Executed (binary i), after)
  /\ regGet (regs after) (Num d) = VNum (Num shifted).
Proof.
  intros Hok Hh Hf Hop H1 H2 H3 Hd Hrange Hv1 Hv2 shifted after.
  assert (Part000.step st = (Executed (binary i), after)) as E.
  { rewrite (step_running st i Hh Hf), Hop.
    rewrite (execute_rType "SLL" _ t1 t2 t3) by (assumption || reflexivity).
    unfold operand. rewrite Hv1, Hv2, Hd. cbn [ToNumber].
    rewrite (sll_value v1 v2 (regGet_int32 _ _ _ Hok Hv1)).
    rewrite writeBack_register by lia.
    rewrite wrap32_wrap32. reflexivity. }
  rewrite step_agree, E. repeat split.
  unfold after, regGet. cbn [regs set_pc log set_logs set_regs].
  destruct (Z.leb_spec 0 d); [ | lia].
  rewrite list_lookup_insert_eq; [reflexivity | ].
  destruct Hok as [Hlen _]. lia.
Qed.

(** A register file given by its 32 elements is well formed. *)
Ltac regs_ok_by_computation :=
  vm_compute; split;
  [ reflexivity
  | repeat (constructor; [unfold int32; lia | ]); constructor ].

Lemma sll_shift_amount_modulo_32_witness :
  let st := (run Part000.step 2 (fresh shiftProgram)).2 in
  let i := mkInstr 8 "SLL x3, x1, x2" "??????? ????? ????? ??? 0000000" in
  Part000.step st =
    (Executed (binary i),
     set_pc (pc st + 4)
       (log (LogStep (pc st) (text i) NoNote)
          (set_regs (<[Z.to_nat 3 := wrap32 (3 * 2 ^ (33 mod 32))]> (regs st)) st))).
Proof.
  intros st i.
  refine (proj1 (sll_shift_amount_modulo_32 st i "x3" "x1" "x2" 3 3 33
                   _ _ _ _ _ _ _ _ _ _ _));
    try (vm_compute; reflexivity).
  - regs_ok_by_computation.
  - lia.
Defined.

(** ** Faults *)

(** The only fault of [step]: an instruction that lacks a token it hands to
    [getRegIndex].  The step then returns false, halts, appends the error
    line for the current program counter and changes nothing else. *)
Lemma step_fault (st : State) (i : Instr) :
  halted st = false ->
  fetch st = Some i ->
  (length (partsOf i) <= registerOperands (opOf i))%nat ->
  Part000.step st = (StepFalse, set_halted true (log (LogError (pc st)) st)).
Proof.
  intros Hh Hf Hlen.
  rewrite (step_running st i Hh Hf).
  rewrite execute_throws; [reflexivity | apply decode_nonempty | exact Hlen].
Qed.

(** With those tokens present the step succeeds, whatever they hold. *)
Lemma step_no_fault (st : State) (i : Instr) :
  halted st = false ->
  fetch st = Some i ->
  (registerOperands (opOf i) < length (partsOf i))%nat ->
  exists st', Part000.step st = (Executed (binary i), st')
    /\ pc st' = pc st + 4 /\ halted st' = false.
Proof.
  intros Hh Hf Hlen.
  rewrite (step_running st i Hh Hf).
  destruct (execute_completes (opOf i) (partsOf i) st Hlen) as (note & st1 & E).
  destruct (execute_effect (opOf i) (partsOf i) st)
    as (c & st2 & E' & Hpc & Hhalt & _).
  rewrite E in E'. injection E' as <- <-. rewrite E. simpl.
  eexists; split; [reflexivity | ]. simpl. rewrite Hpc, Hhalt. auto.
Qed.

Lemma js_add_NaN_r (a : Number) : js_add a NaN = NaN.
Proof. destruct a; reflexivity. Qed.

Lemma js_lt_NaN_r (a : Number) : js_lt a NaN = false.
Proof. destruct a; reflexivity. Qed.

(** With NaN as the immediate both immediate forms compute 0. *)
Lemma aluI_NaN (op : string) (v1 : Number) :
  includes iTypes op = true -> aluI op v1 NaN = Num 0.
Proof.
  unfold iTypes, aluI. repeat rewrite includes_cons. rewrite includes_nil.
  destruct (String.eqb_spec op "ADDI") as [E | _].
  - intros _. rewrite js_add_NaN_r. reflexivity.
  - destruct (String.eqb_spec op "SLTI") as [E | _]; [ | discriminate].
    intros _. rewrite js_lt_NaN_r. reflexivity.
Qed.

(** The claim C1 as it is worded fails on the program [ADDI x1, x0, abc]:
    the immediate token holds no integer, yet the step does not return
    false and does not halt. *)
Lemma nonnumeric_immediate_counterexample :
  parseInt (Some "abc") = NaN
  /\ ~ ((Part000.step (fresh badImmediate)).1 = StepFalse
        /\ halted (Part000.step (fresh badImmediate)).2 = true).
Proof.
  split; [vm_compute; reflexivity | ].
  intros [H _]. vm_compute in H. discriminate H.
Qed.

(** C1, amended. A step on an ADDI or SLTI instruction that has its two
    register tokens and whose immediate is missing or holds no parseable
    integer does not fault: [parseInt] yields NaN, the value computed is 0
    and goes through the usual write-back, the generic trace line is
    appended, the program counter advances by 4, [halted] stays false and
    the step returns a success result. *)
Theorem nonnumeric_immediate_does_not_fault
    (st : State) (i : Instr) (t1 t2 : string) :
  halted st = false ->
  fetch st = Some i ->
  includes iTypes (opOf i) = true ->
  partsOf i !! 1%nat = Some t1 ->
  partsOf i !! 2%nat = Some t2 ->
  parseInt (partsOf i !! 3%nat) = NaN ->
  let after :=
    set_pc (pc st + 4)
      (log (LogStep (pc st) (text i) NoNote)
         (writeBack (regIndex t1) (Num 0) st)) in
  Part000.step st = (Executed (binary i), after)
  /\ halted after = false
  /\ pc after = pc st + 4
  /\ dataMemory after = dataMemory st.
Proof.
  intros Hh Hf Hop H1 H2 Himm after.
  destruct (writeBack_fields (regIndex t1) (Num 0) st) as (Hpc & Hh' & Hm' & _).
  repeat split.
  - rewrite (step_running st i Hh Hf).
    rewrite (execute_iType _ _ t1 t2 st Hop H1 H2), Himm, (aluI_NaN _ _ Hop).
    unfold finish, after. rewrite Hpc. reflexivity.
  - simpl. congruence.
  - exact Hm'.
Qed.

Lemma nonnumeric_immediate_does_not_fault_witness :
  let st := fresh badImmediate in
  let i := mkInstr 0 "ADDI x1, x0, abc" "??????? ????? ????? ??? 0010011" in
  Part000.step st =
    (Executed (binary i),
     set_pc (pc st + 4)
       (log (LogStep (pc st) (text i) NoNote) (writeBack (regIndex "x1") (Num 0) st))).
Proof.
  intros st i.
  refine (proj1 (nonnumeric_immediate_does_not_fault st i "x1" "x0" _ _ _ _ _ _));
    vm_compute; reflexivity.
Defined.

(** ** Register indices outside 0..31 *)

Lemma regGet_outOfRange (rs : list Z) (idx : Number) :
  regs_ok rs -> outOfRange idx = true -> regGet rs idx = Undefined.
Proof.
  intros Hok H. destruct idx as [ | z | b]; try reflexivity.
  apply regGet_out_of_range; [exact Hok | ]. simpl in H. lia.
Qed.

Lemma regSet_outOfRange (rs : list Z) (idx v : Number) :
  regs_ok rs -> outOfRange idx = true -> regSet rs idx v = rs.
Proof.
  intros Hok H. destruct idx as [ | z | b]; try reflexivity.
  apply regSet_out_of_range; [exact Hok | ]. simpl in H. lia.
Qed.

Lemma writeBack_outOfRange (rd res : Number) (st : State) :
  regs_ok (regs st) -> outOfRange rd = true ->
  regs (writeBack rd res st) = regs st.
Proof.
  intros Hok H. unfold writeBack.
  destruct (negb _); [ | reflexivity].
  simpl. apply regSet_outOfRange; assumption.
Qed.

(** A destination out of range: the dispatch completes and leaves registers
    and data memory as they are. *)
Lemma execute_destination_outOfRange
    (op : string) (parts : list string) (t1 : string) (st : State) :
  regs_ok (regs st) ->
  includes withDestination op = true ->
  (registerOperands op < length parts)%nat ->
  parts !! 1%nat = Some t1 ->
  outOfRange (regIndex t1) = true ->
  regs (Part000.execute op parts st).2 = regs st
  /\ dataMemory (Part000.execute op parts st).2 = dataMemory st.
Proof.
  intros Hok Hop Hlen H1 Hout.
  assert (forall res, regs (writeBack (regIndex t1) res st) = regs st
                      /\ dataMemory (writeBack (regIndex t1) res st) = dataMemory st) as Hwb.
  { intros res. split; [apply writeBack_outOfRange; assumption | ].
    apply writeBack_fields. }
  revert Hop Hlen. unfold withDestination, registerOperands, rTypes, iTypes. cbn [app].
  case_op op; intros Hop Hlen; try discriminate Hop;
    destruct parts as [ | p0 [ | p1 [ | p2 [ | p3 rest]]]]; simpl in Hlen; try lia;
    injection H1 as ->.
  1-7: erewrite execute_rType; [apply Hwb | reflexivity ..].
  1-4: erewrite execute_iType; [apply Hwb | reflexivity ..].
  1-2: erewrite execute_LW; [apply Hwb | reflexivity ..].
Qed.

(** ** Store then load *)

Lemma orZero_int (v : Z) : orZero (VNum (Num v)) = VNum (Num v).
Proof.
  unfold orZero, truthy. destruct (Z.eqb_spec v 0) as [-> | _]; reflexivity.
Qed.

Lemma memGet_insert (m : gmap Number Value) (a : Number) (v : Value) :
  memGet (<[a := v]> m) a = v.
Proof. unfold memGet. rewrite lookup_insert_eq. reflexivity. Qed.

(** C6. Let the instruction at the program counter be SW x_a, x_b, k and the
    one fetched by the next step be LW x_c, x_b, k, with the same base and
    offset tokens, x_a holding [v] and x_c one of the registers 1..31.  Both
    steps succeed and x_c then holds [v]. *)
Theorem store_load_round_trip
    (st : State) (i1 i2 : Instr) (ta tb tk tc : string) (c v : Z) :
  regs_ok (regs st) ->
  halted st = false ->
  fetch st = Some i1 ->
  opOf i1 = "SW" ->
  partsOf i1 !! 1%nat = Some ta ->
  partsOf i1 !! 2%nat = Some tb ->
  partsOf i1 !! 3%nat = Some tk ->
  fetch (Part000.step st).2 = Some i2 ->
  opOf i2 = "LW" ->
  partsOf i2 !! 1%nat = Some tc ->
  partsOf i2 !! 2%nat = Some tb ->
  partsOf i2 !! 3%nat = Some tk ->
  regGet (regs st) (regIndex ta) = VNum (Num v) ->
  regIndex tc = Num c -> 0 < c < 32 ->
  let st1 := (Part000.step st).2 in
  let st2 := (Part000.step st1).2 in
  (Part000.step st).1 = Executed (binary i1)
  /\ (Part000.step st1).1 = Executed (binary i2)
  /\ regGet (regs st2) (Num c) = VNum (Num v).
Proof.
  intros Hok Hh Hf1 Hop1 Ha Hb Hk Hf2 Hop2 Hc Hb2 Hk2 Hv Hidx Hrange st1 st2.
  assert (Part000.step st =
            (Executed (binary i1),
             set_pc (pc st + 4)
               (log (LogStep (pc st) (text i1)
                       (StoreNote (VNum (Num v)) (effectiveAddress st (partsOf i1) tb)))
                  (set_dataMemory
                     (<[effectiveAddress st (partsOf i1) tb := VNum (Num v)]> (dataMemory st))
                     st)))) as E1.
  { rewrite (step_running st i1 Hh Hf1), Hop1, (execute_SW _ ta tb st Ha Hb), Hv.
    reflexivity. }
  subst st2 st1. rewrite E1 in Hf2 |- *. cbn [fst snd] in Hf2 |- *.
  set (st1 := set_pc _ _) in *.
  assert (effectiveAddress st1 (partsOf i2) tb = effectiveAddress st (partsOf i1) tb) as Ea.
  { unfold effectiveAddress, operand. rewrite Hk, Hk2. reflexivity. }
  rewrite (step_running st1 i2 Hh Hf2), Hop2, (execute_LW _ tc tb st1 Hc Hb2), Ea.
  change (dataMemory st1)
    with (<[effectiveAddress st (partsOf i1) tb := VNum (Num v)]> (dataMemory st)).
  rewrite memGet_insert, orZero_int, Hidx. cbn [ToNumber].
  rewrite writeBack_register by lia.
  repeat split.
  cbn [finish snd regs set_pc log set_logs set_regs st1 set_dataMemory].
  unfold regGet. destruct (Z.leb_spec 0 c); [ | lia].
  rewrite list_lookup_insert_eq by (destruct Hok as [Hlen _]; lia).
  rewrite wrap32_id by exact (regGet_int32 _ _ _ Hok Hv). reflexivity.
Qed.

Lemma store_load_round_trip_witness :
  let st := (run Part000.step 2 (fresh scenarioB)).2 in
  regGet (regs (Part000.step (Part000.step st).2).2) (Num 3) = VNum (Num 99).
Proof.
  intros st.
  refine (proj2 (proj2 (store_load_round_trip st
            (mkInstr 8 "SW x1, x2, 4" "??????? ????? ????? ??? 0100011")
            (mkInstr 12 "LW x3, x2, 4" "??????? ????? ????? ??? 0000011")
            "x1" "x2" "4" "x3" 3 99 _ _ _ _ _ _ _ _ _ _ _ _ _ _ _)));
    try (vm_compute; reflexivity).
  - regs_ok_by_computation.
  - lia.
Defined.

(** ** The two files side by side *)

Lemma sameProgram_imap (F G : nat -> string -> Instr) (l : list string) :
  (forall k c, addr (F k c) = addr (G k c) /\ text (F k c) = text (G k c)) ->
  sameProgram (imap F l) (imap G l).
Proof.
  revert F G. induction l as [ | c l IH]; intros F G H; simpl.
  - constructor.
  - constructor; [apply H | ]. apply IH. intros k x. apply H.
Qed.

Lemma loadProgram_sameMachine (txt : string) (st0 st0' : State) :
  sameMachine (ScriptJs.loadProgram txt st0) (Part000.loadProgram txt st0').
Proof.
  unfold ScriptJs.loadProgram, Part000.loadProgram.
  rewrite !loadProgramWith_spec.
  split; try reflexivity.
  apply sameProgram_imap. intros k c. split; reflexivity.
Qed.

Lemma find_sameProgram (p : Z) (a b : list Instr) :
  sameProgram a b ->
  match List.find (fun i => addr i =? p) a, List.find (fun i => addr i =? p) b with
  | Some i, Some j => addr i = addr j /\ text i = text j
  | None, None => True
  | _, _ => False
  end.
Proof.
  induction 1 as [ | i j a b [Ha Ht] _ IH]; simpl; [exact I | ].
  rewrite <- Ha. destruct (addr i =? p); [ | exact IH].
  split; assumption.
Qed.

(** A step keeps two such objects alike and returns alike. *)
Lemma step_sameMachine (s1 s2 : State) :
  sameMachine s1 s2 ->
  sameMachine (Part000.step s1).2 (Part000.step s2).2
  /\ succeeded (Part000.step s1).1 = succeeded (Part000.step s2).1.
Proof.
  intros [Hpc Hregs Hmem Hhalt Hlogs Hprog].
  assert (s2 = set_instrMemory (instrMemory s2) s1) as E2.
  { destruct s1, s2. simpl in *. subst. reflexivity. }
  destruct (halted s1) eqn:Hh1.
  { unfold Part000.step. rewrite <- Hhalt, Hh1. simpl.
    split; [ | reflexivity]. split; congruence. }
  assert (halted s2 = false) as Hh2 by congruence.
  pose proof (find_sameProgram (pc s1) _ _ Hprog) as Hfind.
  assert (fetch s2 = List.find (fun i => addr i =? pc s1) (instrMemory s2)) as Ef2.
  { unfold fetch. rewrite Hpc. reflexivity. }
  fold (fetch s1) in Hfind. rewrite <- Ef2 in Hfind.
  destruct (fetch s1) as [i | ] eqn:Hf1, (fetch s2) as [j | ] eqn:Hf2;
    try contradiction.
  - destruct Hfind as [_ Ht].
    rewrite (step_running s1 i Hh1 Hf1), (step_running s2 j Hh2 Hf2).
    unfold opOf, partsOf. rewrite <- Ht, <- Hpc.
    rewrite E2 at 1 2. rewrite execute_instrMemory.
    destruct (execute_effect (toUpperCase (hd "" (decode (text i)))) (decode (text i)) s1)
      as (c & st' & -> & _ & _ & Him & _).
    rewrite <- Him in Hprog.
    destruct c as [note | ]; simpl;
      (split; [ | reflexivity]); split; simpl; auto; congruence.
  - unfold Part000.step. rewrite Hh1, Hh2, Hf1, Hf2. simpl.
    split; [ | reflexivity]. split; simpl; auto. congruence.
Qed.

Lemma run_sameMachine (n : nat) (s1 s2 : State) :
  sameMachine s1 s2 ->
  sameMachine (run Part000.step n s1).2 (run Part000.step n s2).2
  /\ succeeded <$> (run Part000.step n s1).1 = succeeded <$> (run Part000.step n s2).1.
Proof.
  revert s1 s2. induction n as [ | n IH]; intros s1 s2 H; [split; [exact H | reflexivity] | ].
  simpl.
  destruct (step_sameMachine s1 s2 H) as [H' Hr].
  destruct (Part000.step s1) as [r1 t1], (Part000.step s2) as [r2 t2].
  destruct (IH t1 t2 H') as [H'' Hrs].
  destruct (run Part000.step n t1) as [rs1 u1], (run Part000.step n t2) as [rs2 u2].
  cbn [fst snd fmap list_fmap] in *. split; [exact H'' | ]. f_equal; assumption.
Qed.

(** C10. For every program text and every number [n] of [step] calls, the
    object of script.js and the object of the later file, each loaded with
    the text by its own [loadProgram] and stepped [n] times by its own
    [step], end with the same program counter, the same [halted], the same
    registers and the same data memory, and their [step] calls agreed, call
    by call, on success versus false. *)
Theorem variants_agree_on_core_state (txt : string) (st0 st0' : State) (n : nat) :
  let r1 := run ScriptJs.step n (ScriptJs.loadProgram txt st0) in
  let r2 := run Part000.step n (Part000.loadProgram txt st0') in
  pc r1.2 = pc r2.2
  /\ halted r1.2 = halted r2.2
  /\ regs r1.2 = regs r2.2
  /\ dataMemory r1.2 = dataMemory r2.2
  /\ succeeded <$> r1.1 = succeeded <$> r2.1.
Proof.
  intros r1 r2. subst r1 r2.
  rewrite (run_ext _ _ _ _ step_agree).
  destruct (run_sameMachine n _ _ (loadProgram_sameMachine txt st0 st0'))
    as [[Hpc Hregs Hmem Hhalt _ _] Hrs].
  repeat split; assumption.
Qed.

(** ** The example programs of the later file *)

(** After the first example: x3 = 40, x4 = 10, x5 = 375. *)
Example scenarioA_registers :
  take 6 (regs (run Part000.step 6 (fresh scenarioA)).2) = [0; 15; 25; 40; 10; 375].
Proof. vm_compute. reflexivity. Qed.

(** After the second example: x3 = 99, x4 = 100 and address 4 holds 99. *)
Example scenarioB_registers_and_memory :
  let st := (run Part000.step 5 (fresh scenarioB)).2 in
  take 5 (regs st) = [0; 99; 0; 99; 100]
  /\ dataMemory st = {[ Num 4 := VNum (Num 99) ]}.
Proof. split; vm_compute; reflexivity. Qed.

(** Running off the end: the step after the last instruction returns false
    and halts. *)
Example scenarioB_fetch_miss :
  let r := run Part000.step 6 (fresh scenarioB) in
  succeeded <$> r.1 = [true; true; true; true; true; false]
  /\ halted r.2 = true
  /\ pc r.2 = 20.
Proof. repeat split; vm_compute; reflexivity. Qed.

(** * Further properties of the code *)

(** ** Halting *)

Lemma run_halted (n : nat) (st : State) :
  halted st = true -> run Part000.step n st = (replicate n StepFalse, st).
Proof.
  intros Hh. induction n as [ | n IH]; [reflexivity | ].
  simpl. unfold Part000.step at 1. rewrite Hh, IH. reflexivity.
Qed.

(** X1. Once a call of [step] has returned false, whether at the end of the
    program or on a fault, the object is halted and every later call
    returns false and changes nothing, in both files. *)
Theorem halted_is_terminal (st st' : State) (n : nat) :
  Part000.step st = (StepFalse, st') ->
  halted st' = true
  /\ run Part000.step n st' = (replicate n StepFalse, st')
  /\ run ScriptJs.step n st' = (replicate n StepFalse, st').
Proof.
  intros E.
  destruct (step_effect st) as (r & st1 & E1 & _ & _ & Hh & _).
  rewrite E in E1. injection E1 as <- <-.
  split; [exact Hh | ].
  rewrite (run_ext _ _ _ _ step_agree). split; apply run_halted, Hh.
Qed.

Lemma halted_is_terminal_witness :
  let st := (run Part000.step 5 (fresh scenarioB)).2 in
  let st' := set_halted true (log LogProgramEnd st) in
  run Part000.step 3 st' = (replicate 3 StepFalse, st').
Proof.
  intros st st'.
  refine (proj1 (proj2 (halted_is_terminal st st' 3 _))).
  vm_compute. reflexivity.
Defined.

(** ** The trace and the program *)

(** X2. A call of [step] on a halted object changes nothing; on a running
    object it appends exactly one entry to [logs]; and no call ever changes
    the instruction list.  Both files. *)
Theorem step_logs_once (st : State) :
  (halted st = true -> Part000.step st = (StepFalse, st))
  /\ (halted st = false ->
      exists entry, logs (Part000.step st).2 = (logs st ++ [entry])%list)
  /\ instrMemory (Part000.step st).2 = instrMemory st
  /\ ScriptJs.step st = Part000.step st.
Proof.
  split; [ | split; [ | split]].
  - intros Hh. unfold Part000.step. rewrite Hh. reflexivity.
  - intros Hh. destruct (fetch st) as [i | ] eqn:Hf.
    + rewrite (step_running st i Hh Hf).
      destruct (execute_effect (opOf i) (partsOf i) st)
        as (c & st1 & -> & _ & _ & _ & Hlogs & _ & Hthrow).
      destruct c as [note | ]; simpl; rewrite Hlogs; eexists; reflexivity.
    + unfold Part000.step. rewrite Hh, Hf. simpl. eexists; reflexivity.
  - destruct (step_effect st) as (r & st1 & -> & Him & _). exact Him.
  - apply step_agree.
Qed.

Lemma step_logs_once_witness :
  exists entry,
    logs (Part000.step (fresh scenarioB)).2 = (logs (fresh scenarioB) ++ [entry])%list.
Proof.
  refine (proj1 (proj2 (step_logs_once (fresh scenarioB))) _).
  vm_compute. reflexivity.
Defined.

(** ** Faults, exactly *)

(** X3. On a running object whose program counter has an instruction, the
    step succeeds exactly when the instruction has the register tokens its
    mnemonic hands to [getRegIndex] (three for the register forms, two for
    the immediate forms, LW and SW, one for PRINT, none otherwise).  When a
    token is missing the step returns false, halts and appends the error
    entry for the current program counter; program counter, registers and
    data memory stay as they were.  Both files. *)
Theorem step_faults_exactly (st : State) (i : Instr) :
  halted st = false ->
  fetch st = Some i ->
  (succeeded (Part000.step st).1 = true <->
     (registerOperands (opOf i) < length (partsOf i))%nat)
  /\ ((length (partsOf i) <= registerOperands (opOf i))%nat ->
      Part000.step st = (StepFalse, set_halted true (log (LogError (pc st)) st))
      /\ ScriptJs.step st = (StepFalse, set_halted true (log (LogError (pc st)) st))).
Proof.
  intros Hh Hf. split.
  - split.
    + intros Hs.
      destruct (Nat.lt_ge_cases (registerOperands (opOf i)) (length (partsOf i)))
        as [Hlt | Hge]; [exact Hlt | ].
      rewrite (step_fault st i Hh Hf Hge) in Hs. discriminate Hs.
    + intros Hlt.
      destruct (step_no_fault st i Hh Hf Hlt) as (st' & -> & _). reflexivity.
  - intros Hge. rewrite step_agree, (step_fault st i Hh Hf Hge). split; reflexivity.
Qed.

Lemma step_faults_exactly_witness :
  let st := (Part000.step (fresh truncatedProgram)).2 in
  Part000.step st = (StepFalse, set_halted true (log (LogError (pc st)) st)).
Proof.
  intros st.
  pose (i := mkInstr 4 "ADD x2, x1" "??????? ????? ????? ??? 0110011").
  refine (proj1 (proj2 (step_faults_exactly st i _ _) _));
    vm_compute; first [reflexivity | lia].
Defined.

(** ** What a step leaves alone *)

Lemma regSet_other (rs : list Z) (rd v : Number) (j : nat) :
  rd <> Num (Z.of_nat j) -> regSet rs rd v !! j = rs !! j.
Proof.
  intros H. unfold regSet. destruct rd as [ | z | b]; try reflexivity.
  destruct (Z.leb_spec 0 z); [ | reflexivity].
  apply list_lookup_insert_ne. intros E. apply H. f_equal. lia.
Qed.

Lemma execute_register_frame (op : string) (parts : list string) (st : State) (j : nat) :
  includes withDestination op = false
  \/ (forall t1, parts !! 1%nat = Some t1 -> regIndex t1 <> Num (Z.of_nat j)) ->
  regs (Part000.execute op parts st).2 !! j = regs st !! j.
Proof.
  unfold withDestination, rTypes, iTypes, Part000.execute. cbn [app].
  intros H. revert H.
  case_op op; intros [H | H]; try discriminate H; case_parts parts;
    cbn [snd regs set_regs set_dataMemory];
    first [ reflexivity | apply regSet_other, H; reflexivity ].
Qed.

(** X4. A step changes at most the register that the first operand token of
    its instruction names: every other register keeps its value, and an
    instruction with no destination (SW, PRINT, an unrecognized mnemonic)
    changes no register.  Both files. *)
Theorem step_changes_at_most_the_destination (st : State) (i : Instr) (j : nat) :
  halted st = false ->
  fetch st = Some i ->
  includes withDestination (opOf i) = false
  \/ (forall t1, partsOf i !! 1%nat = Some t1 -> regIndex t1 <> Num (Z.of_nat j)) ->
  regs (Part000.step st).2 !! j = regs st !! j
  /\ regs (ScriptJs.step st).2 !! j = regs st !! j.
Proof.
  intros Hh Hf H.
  rewrite step_agree, (step_running st i Hh Hf).
  pose proof (execute_register_frame (opOf i) (partsOf i) st j H) as E.
  destruct (Part000.execute (opOf i) (partsOf i) st) as [[note | ] st1];
    simpl in *; split; exact E.
Qed.

Lemma step_changes_at_most_the_destination_witness :
  let st := (run Part000.step 2 (fresh scenarioA)).2 in
  regs (Part000.step st).2 !! 1%nat = regs st !! 1%nat.
Proof.
  intros st.
  pose (i := mkInstr 8 "ADD x3, x1, x2" "??????? ????? ????? ??? 0110011").
  refine (proj1 (step_changes_at_most_the_destination st i 1 _ _ (or_intror _)));
    [ vm_compute; reflexivity | vm_compute; reflexivity | ].
  intros t1 H. vm_compute in H. injection H as <-. vm_compute. discriminate.
Defined.

Lemma execute_memory_frame (op : string) (parts : list string) (st : State) :
  op <> "SW" -> dataMemory (Part000.execute op parts st).2 = dataMemory st.
Proof.
  unfold Part000.execute. intros H. revert H.
  case_op op; intros H; try (exfalso; apply H; reflexivity);
    case_parts parts; reflexivity.
Qed.

(** X5. Only SW writes the data memory.  For every call of [step], in both
    files: either the data memory is left exactly as it was (another
    mnemonic, a halted object whatever instruction its program counter
    stands at, a program counter without instruction, a fault, that of an
    SW lacking a register token included; in particular a load creates no
    entry), or the object was running, the instruction fetched is an SW
    that has its two register tokens, the step succeeds, and the data
    memory is the old one with the value of the first operand stored at
    the effective address. *)
Theorem only_SW_writes_memory (st : State) :
  (dataMemory (Part000.step st).2 = dataMemory st
   \/ (halted st = false
       /\ exists i t1 t2,
            fetch st = Some i /\ opOf i = "SW"
            /\ partsOf i !! 1%nat = Some t1 /\ partsOf i !! 2%nat = Some t2
            /\ succeeded (Part000.step st).1 = true
            /\ dataMemory (Part000.step st).2 =
                 <[effectiveAddress st (partsOf i) t2 := regGet (regs st) (regIndex t1)]>
                   (dataMemory st)))
  /\ ScriptJs.step st = Part000.step st.
Proof.
  split; [ | apply step_agree].
  destruct (halted st) eqn:Hh.
  { left. unfold Part000.step. rewrite Hh. reflexivity. }
  destruct (fetch st) as [i | ] eqn:Hf.
  2: { left. unfold Part000.step. rewrite Hh, Hf. reflexivity. }
  rewrite (step_running st i Hh Hf).
  destruct (String.eqb_spec (opOf i) "SW") as [Hop | Hop].
  - destruct (partsOf i !! 1%nat) as [t1 | ] eqn:H1;
      [destruct (partsOf i !! 2%nat) as [t2 | ] eqn:H2 | ].
    + right. split; [reflexivity | ]. exists i, t1, t2.
      rewrite Hop, (execute_SW _ t1 t2 st H1 H2).
      repeat split; first [assumption | reflexivity].
    + left. rewrite execute_throws; [reflexivity | apply decode_nonempty | ].
      rewrite Hop. apply lookup_ge_None in H2. exact H2.
    + left. rewrite execute_throws; [reflexivity | apply decode_nonempty | ].
      rewrite Hop. apply lookup_ge_None in H1. change (registerOperands "SW") with 2%nat. lia.
  - left.
    pose proof (execute_memory_frame (opOf i) (partsOf i) st Hop) as E.
    destruct (Part000.execute (opOf i) (partsOf i) st) as [[note | ] st1];
      simpl in *; exact E.
Qed.

(** A store that lacks its base register faults, and neither that step nor
    the next one, on the halted object whose program counter stands at the
    store, touches the data memory. *)
Example faulting_store_leaves_memory :
  let st := (Part000.step (fresh truncatedStore)).2 in
  (Part000.step st).1 = StepFalse
  /\ dataMemory (Part000.step st).2 = dataMemory st
  /\ halted (Part000.step st).2 = true
  /\ opOf <$> fetch (Part000.step st).2 = Some "SW"
  /\ dataMemory (Part000.step (Part000.step st).2).2 = dataMemory st.
Proof. repeat split; vm_compute; reflexivity. Qed.

(** ** Invariants of the object *)

Lemma regGet_wordOrUndefined (rs : list Z) (idx : Number) :
  regs_ok rs -> wordOrUndefined (regGet rs idx).
Proof.
  intros Hok. destruct (regGet rs idx) as [ | n] eqn:E; [left; reflexivity | ].
  right. unfold regGet in E.
  destruct idx as [ | z | b]; try discriminate.
  destruct (0 <=? z); [ | discriminate].
  destruct (rs !! Z.to_nat z) as [w | ] eqn:Ew; [ | discriminate].
  injection E as <-. exists w. split; [reflexivity | ].
  destruct Hok as [_ Hall]. rewrite Forall_lookup in Hall. exact (Hall _ _ Ew).
Qed.

Lemma execute_memory_effect (op : string) (parts : list string) (st : State) :
  dataMemory (Part000.execute op parts st).2 = dataMemory st
  \/ exists a idx,
       dataMemory (Part000.execute op parts st).2 =
         <[a := regGet (regs st) idx]> (dataMemory st).
Proof.
  destruct (String.eqb_spec op "SW") as [-> | Hne].
  - unfold Part000.execute. concrete_op. case_parts parts;
      first [ left; reflexivity | right; eexists _, _; reflexivity ].
  - left. apply execute_memory_frame, Hne.
Qed.

Lemma step_memory_words (st : State) :
  regs_ok (regs st) ->
  map_Forall (fun _ v => wordOrUndefined v) (dataMemory st) ->
  map_Forall (fun _ v => wordOrUndefined v) (dataMemory (Part000.step st).2).
Proof.
  intros Hok Hmem.
  destruct (halted st) eqn:Hh.
  { unfold Part000.step. rewrite Hh. exact Hmem. }
  destruct (fetch st) as [i | ] eqn:Hf.
  - rewrite (step_running st i Hh Hf).
    pose proof (execute_memory_effect (opOf i) (partsOf i) st) as E.
    destruct (Part000.execute (opOf i) (partsOf i) st) as [[note | ] st1];
      simpl in *; destruct E as [-> | (a & idx & ->)]; try exact Hmem;
      apply map_Forall_insert_2; try exact Hmem; apply regGet_wordOrUndefined, Hok.
  - unfold Part000.step. rewrite Hh, Hf. exact Hmem.
Qed.

(** X6. After any sequence of [loadProgram] and [step] calls on a new
    simulator, in both files, the register file has its 32 elements, each a
    signed 32-bit integer, and every value held in the data memory is a
    signed 32-bit integer or [undefined] (stored from a register index out
    of range). *)
Theorem object_invariant (calls : list Call) :
  let s1 := history Part000.loadProgram Part000.step calls in
  let s2 := history ScriptJs.loadProgram ScriptJs.step calls in
  regs_ok (regs s1)
  /\ map_Forall (fun _ v => wordOrUndefined v) (dataMemory s1)
  /\ regs_ok (regs s2)
  /\ map_Forall (fun _ v => wordOrUndefined v) (dataMemory s2).
Proof.
  intros s1 s2.
  assert (forall f,
    let s := history (loadProgramWith f) Part000.step calls in
    regs_ok (regs s) /\ map_Forall (fun _ v => wordOrUndefined v) (dataMemory s)) as H.
  { intros f.
    apply (history_invariant
      (fun st => regs_ok (regs st)
                 /\ map_Forall (fun _ v => wordOrUndefined v) (dataMemory st))).
    - split; [apply regs_ok_reset | apply map_Forall_empty].
    - intros txt st. rewrite loadProgramWith_spec.
      split; [apply regs_ok_reset | apply map_Forall_empty].
    - intros st [Hok Hmem].
      split; [apply step_regs_ok, Hok | apply step_memory_words; assumption]. }
  destruct (H Part000.generateFakeBinary) as [H1 H2].
  destruct (H ScriptJs.generateFakeBinary) as [H3 H4].
  subst s1 s2. rewrite history_ScriptJs.
  split; [exact H1 | split; [exact H2 | split; [exact H3 | exact H4]]].
Qed.

(** ** Program order *)

Lemma find_assembleFrom (f : string -> string) (a : Z) (l : list string) (j : nat) :
  List.find (fun i => addr i =? a + 4 * Z.of_nat j) (assembleFrom f a l) =
    (fun c => mkInstr (a + 4 * Z.of_nat j) c (f c)) <$> l !! j.
Proof.
  revert a j. induction l as [ | c l IH]; intros a j; [reflexivity | ].
  cbn [assembleFrom List.find addr].
  destruct j as [ | j].
  - replace (a + 4 * Z.of_nat 0) with a by lia. rewrite Z.eqb_refl. reflexivity.
  - destruct (Z.eqb_spec a (a + 4 * Z.of_nat (S j))) as [E | _]; [lia | ].
    replace (a + 4 * Z.of_nat (S j)) with (a + 4 + 4 * Z.of_nat j) by lia.
    apply IH.
Qed.

Lemma run_instrMemory (n : nat) (st : State) :
  instrMemory (run Part000.step n st).2 = instrMemory st.
Proof.
  revert st. induction n as [ | n IH]; intros st; [reflexivity | ].
  simpl. destruct (step_effect st) as (r & st1 & -> & Him & _).
  specialize (IH st1). destruct (run Part000.step n st1) as [rs st2].
  simpl in *. congruence.
Qed.

Lemma run_all_succeeded_pc (n : nat) (st : State) :
  forallb succeeded (run Part000.step n st).1 = true ->
  pc (run Part000.step n st).2 = pc st + 4 * Z.of_nat n.
Proof.
  intros H. rewrite run_pc, (filter_all_succeeded _ H), run_length. reflexivity.
Qed.

Lemma fetch_loaded (f : string -> string) (txt : string) (st0 : State) (n : nat) :
  let r := run Part000.step n (loadProgramWith f txt st0) in
  forallb succeeded r.1 = true ->
  fetch r.2 = (fun c => mkInstr (4 * Z.of_nat n) c (f c)) <$> cleanLines txt !! n.
Proof.
  intros r H. unfold fetch. subst r.
  rewrite run_instrMemory, (run_all_succeeded_pc _ _ H).
  rewrite loadProgramWith_spec. cbn [pc instrMemory].
  rewrite <- (assembleFrom_imap f 0).
  apply (find_assembleFrom f 0).
Qed.

(** X7. Instructions are fetched in the order of the text: after a program
    is loaded and [n] steps have succeeded, the instruction the next step
    fetches is the record of the n-th accepted line (counting from 0), at
    address 4n, and there is none when the text has no more than n accepted
    lines.  Both files. *)
Theorem fetch_in_program_order (txt : string) (st0 : State) (n : nat) :
  let r1 := run Part000.step n (Part000.loadProgram txt st0) in
  let r2 := run ScriptJs.step n (ScriptJs.loadProgram txt st0) in
  (forallb succeeded r1.1 = true ->
   fetch r1.2 =
     (fun c => mkInstr (4 * Z.of_nat n) c (Part000.generateFakeBinary c))
       <$> cleanLines txt !! n)
  /\ (forallb succeeded r2.1 = true ->
      fetch r2.2 =
        (fun c => mkInstr (4 * Z.of_nat n) c (ScriptJs.generateFakeBinary c))
          <$> cleanLines txt !! n).
Proof.
  intros r1 r2. split.
  - apply fetch_loaded.
  - subst r2. rewrite (run_ext _ _ _ _ step_agree). apply fetch_loaded.
Qed.

Lemma fetch_in_program_order_witness :
  fetch (run Part000.step 3 (Part000.loadProgram scenarioA new_RISCV_Simulator)).2 =
    (fun c => mkInstr (4 * Z.of_nat 3) c (Part000.generateFakeBinary c))
      <$> cleanLines scenarioA !! 3%nat.
Proof.
  refine (proj1 (fetch_in_program_order scenarioA new_RISCV_Simulator 3) _).
  vm_compute. reflexivity.
Defined.

Lemma run_snoc (f : State -> StepResult * State) (n : nat) (st : State) :
  run f (S n) st =
    (((run f n st).1 ++ [(f (run f n st).2).1])%list, (f (run f n st).2).2).
Proof.
  revert st. induction n as [ | n IH]; intros st.
  - simpl. destruct (f st); reflexivity.
  - change (run f (S (S n)) st)
      with (let '(r, st1) := f st in
            let '(rs, st2) := run f (S n) st1 in (r :: rs, st2)).
    destruct (f st) as [r st1] eqn:E. rewrite IH.
    simpl. rewrite E. destruct (run f n st1) as [rs st2]. reflexivity.
Qed.

Lemma run_halted_false (n : nat) (st : State) :
  halted st = false ->
  forallb succeeded (run Part000.step n st).1 = true ->
  halted (run Part000.step n st).2 = false.
Proof.
  revert st. induction n as [ | n IH]; intros st Hh H; [exact Hh | ].
  simpl in *.
  destruct (step_effect st) as (r & st1 & E & _ & _ & Hh1 & _).
  rewrite E in *. specialize (IH st1).
  destruct (run Part000.step n st1) as [rs st2]. simpl in *.
  apply andb_true_iff in H as [Hr Hrs]. apply IH; [ | exact Hrs].
  rewrite Hh1, Hr. reflexivity.
Qed.

Lemma run_well_formed (f : string -> string) (txt : string) (st0 : State) (n : nat) :
  Forall wellFormedLine (cleanLines txt) ->
  (n <= length (cleanLines txt))%nat ->
  forallb succeeded (run Part000.step n (loadProgramWith f txt st0)).1 = true.
Proof.
  intros Hwf. induction n as [ | n IH]; intros Hn; [reflexivity | ].
  assert (forallb succeeded (run Part000.step n (loadProgramWith f txt st0)).1 = true)
    as Hrs by (apply IH; lia).
  rewrite run_snoc. cbn [fst]. rewrite forallb_app, Hrs. cbn [forallb andb].
  rewrite andb_true_r.
  pose proof (fetch_loaded f txt st0 n Hrs) as Hf. cbn zeta in Hf.
  destruct (lookup_lt_is_Some_2 (cleanLines txt) n) as [c Hc]; [lia | ].
  rewrite Hc in Hf. cbn [fmap option_fmap option_map] in Hf.
  assert (halted (run Part000.step n (loadProgramWith f txt st0)).2 = false) as Hh.
  { apply run_halted_false; [ | exact Hrs].
    rewrite loadProgramWith_spec. cbn [halted].
    destruct (cleanLines txt); [discriminate Hc | reflexivity]. }
  rewrite Forall_lookup in Hwf.
  destruct (step_no_fault _ _ Hh Hf (Hwf n c Hc)) as (st' & -> & _). reflexivity.
Qed.

Lemma step_fetch_miss (st : State) :
  halted st = false -> fetch st = None ->
  Part000.step st = (StepFalse, log LogProgramEnd (set_halted true st)).
Proof. intros Hh Hf. unfold Part000.step. rewrite Hh, Hf. reflexivity. Qed.

Lemma all_succeeded_replicate (rs : list StepResult) :
  forallb succeeded rs = true -> succeeded <$> rs = replicate (length rs) true.
Proof.
  induction rs as [ | r rs IH]; [reflexivity | ].
  cbn [forallb fmap list_fmap length replicate]. intros H.
  apply andb_true_iff in H as [Hr Hrs].
  f_equal; [exact Hr | apply IH, Hrs].
Qed.

Lemma run_to_end (f : string -> string) (txt : string) (st0 : State) :
  Forall wellFormedLine (cleanLines txt) ->
  cleanLines txt <> [] ->
  let k := length (cleanLines txt) in
  let r := run Part000.step (S k) (loadProgramWith f txt st0) in
  succeeded <$> r.1 = (replicate k true ++ [false])%list
  /\ pc r.2 = 4 * Z.of_nat k
  /\ halted r.2 = true
  /\ last (logs r.2) = Some LogProgramEnd.
Proof.
  intros Hwf Hne k r. subst r.
  pose proof (run_well_formed f txt st0 k Hwf (le_n _)) as Hrs.
  pose proof (fetch_loaded f txt st0 k Hrs) as Hf. cbn zeta in Hf.
  rewrite (proj2 (lookup_ge_None (cleanLines txt) k)) in Hf by (unfold k; lia).
  cbn [fmap option_fmap option_map] in Hf.
  pose proof (run_all_succeeded_pc _ _ Hrs) as Hpc.
  rewrite loadProgram_pc in Hpc.
  assert (halted (run Part000.step k (loadProgramWith f txt st0)).2 = false) as Hh.
  { apply run_halted_false; [ | exact Hrs].
    rewrite loadProgramWith_spec. cbn [halted].
    destruct (cleanLines txt); [congruence | reflexivity]. }
  assert (Part000.step (run Part000.step k (loadProgramWith f txt st0)).2 =
            (StepFalse,
             log LogProgramEnd
               (set_halted true (run Part000.step k (loadProgramWith f txt st0)).2)))
    as E by (apply step_fetch_miss; assumption).
  rewrite run_snoc, E. cbn [fst snd].
  repeat split.
  - rewrite fmap_app, (all_succeeded_replicate _ Hrs), run_length. reflexivity.
  - cbn [pc log set_logs set_halted]. lia.
  - cbn [logs log set_logs set_halted]. apply last_snoc.
Qed.

(** X8. A loaded program with k >= 1 accepted lines, each of which has the
    register tokens its mnemonic needs, executes all of them: the first k
    steps succeed, the next one finds no instruction, returns false, halts
    and appends the end-of-program entry, leaving the program counter at
    4k.  Both files. *)
Theorem well_formed_program_runs_to_its_end (txt : string) (st0 : State) :
  Forall wellFormedLine (cleanLines txt) ->
  cleanLines txt <> [] ->
  let k := length (cleanLines txt) in
  let r1 := run Part000.step (S k) (Part000.loadProgram txt st0) in
  let r2 := run ScriptJs.step (S k) (ScriptJs.loadProgram txt st0) in
  (succeeded <$> r1.1 = (replicate k true ++ [false])%list
   /\ pc r1.2 = 4 * Z.of_nat k
   /\ halted r1.2 = true
   /\ last (logs r1.2) = Some LogProgramEnd)
  /\ (succeeded <$> r2.1 = (replicate k true ++ [false])%list
      /\ pc r2.2 = 4 * Z.of_nat k
      /\ halted r2.2 = true
      /\ last (logs r2.2) = Some LogProgramEnd).
Proof.
  intros Hwf Hne k r1 r2. split.
  - apply (run_to_end Part000.generateFakeBinary txt st0 Hwf Hne).
  - subst r2. rewrite (run_ext _ _ _ _ step_agree).
    apply (run_to_end ScriptJs.generateFakeBinary txt st0 Hwf Hne).
Qed.

(** The accepted lines of a concrete program are well formed. *)
Ltac well_formed_by_computation :=
  repeat (constructor; [unfold wellFormedLine; vm_compute; lia | ]); constructor.

Lemma cleanLines_scenarioA :
  cleanLines scenarioA =
    ["ADDI x1, x0, 15"; "ADDI x2, x0, 25"; "ADD x3, x1, x2";
     "SUB x4, x2, x1"; "MULT x5, x1, x2"; "PRINT x3"].
Proof. vm_compute. reflexivity. Qed.

Lemma well_formed_program_runs_to_its_end_witness :
  let k := length (cleanLines scenarioA) in
  let r1 := run Part000.step (S k) (Part000.loadProgram scenarioA new_RISCV_Simulator) in
  succeeded <$> r1.1 = (replicate k true ++ [false])%list
  /\ pc r1.2 = 4 * Z.of_nat k
  /\ halted r1.2 = true
  /\ last (logs r1.2) = Some LogProgramEnd.
Proof.
  refine (proj1 (well_formed_program_runs_to_its_end scenarioA new_RISCV_Simulator _ _)).
  - rewrite cleanLines_scenarioA. well_formed_by_computation.
  - rewrite cleanLines_scenarioA. discriminate.
Defined.

(** X9. A text with no accepted line (empty, or only blank and comment
    lines) loads an empty program: the object is halted, and every call of
    [step] returns false and changes nothing.  Both files. *)
Theorem empty_program_never_runs (txt : string) (st0 : State) (n : nat) :
  cleanLines txt = [] ->
  let s1 := Part000.loadProgram txt st0 in
  let s2 := ScriptJs.loadProgram txt st0 in
  instrMemory s1 = [] /\ halted s1 = true
  /\ run Part000.step n s1 = (replicate n StepFalse, s1)
  /\ instrMemory s2 = [] /\ halted s2 = true
  /\ run ScriptJs.step n s2 = (replicate n StepFalse, s2).
Proof.
  intros Hempty s1 s2.
  assert (forall f, instrMemory (loadProgramWith f txt st0) = []
                    /\ halted (loadProgramWith f txt st0) = true) as H.
  { intros f. rewrite loadProgramWith_spec, Hempty. split; reflexivity. }
  destruct (H Part000.generateFakeBinary) as [H1 H2].
  destruct (H ScriptJs.generateFakeBinary) as [H3 H4].
  subst s1 s2. unfold Part000.loadProgram, ScriptJs.loadProgram.
  rewrite (run_ext _ _ _ _ step_agree).
  split; [exact H1 | split; [exact H2 | split; [apply run_halted, H2 | ]]].
  split; [exact H3 | split; [exact H4 | apply run_halted, H4]].
Qed.

Lemma empty_program_never_runs_witness :
  run Part000.step 2 (Part000.loadProgram commentsOnly new_RISCV_Simulator) =
    (replicate 2 StepFalse, Part000.loadProgram commentsOnly new_RISCV_Simulator).
Proof.
  refine (proj1 (proj2 (proj2
    (empty_program_never_runs commentsOnly new_RISCV_Simulator 2 _)))).
  vm_compute. reflexivity.
Defined.

(** ** The Run button *)

Lemma runTick_spec (step : State -> StepResult * State) (st : State) (steps : Z) :
  runTick step st steps =
    ((step st).2,
     (if succeeded (step st).1 && (steps <? 1000) then steps + 1 else steps),
     succeeded (step st).1 && (steps <? 1000)).
Proof.
  unfold runTick. destruct (step st) as [r st']. simpl.
  destruct (succeeded r && (steps <? 1000)); reflexivity.
Qed.

Lemma runLoop_bounded (step : State -> StepResult * State)
    (fuel : nat) (st : State) (steps : Z) :
  0 <= steps <= 1000 ->
  (Z.to_nat (1001 - steps) <= fuel)%nat ->
  exists k, runLoop step fuel st steps = Some (k, (run step k st).2)
    /\ (1 <= k)%nat
    /\ Z.of_nat k <= 1001 - steps
    /\ forallb succeeded (run step (k - 1) st).1 = true
    /\ (succeeded (step (run step (k - 1) st).2).1 = false
        \/ Z.of_nat k = 1001 - steps).
Proof.
  revert st steps. induction fuel as [ | fuel IH]; intros st steps Hs Hf; [lia | ].
  cbn [runLoop]. rewrite runTick_spec. cbn [fst snd].
  destruct (step st) as [r st'] eqn:E. cbn [fst snd].
  destruct (succeeded r) eqn:Hr; cbn [andb].
  - destruct (Z.ltb_spec steps 1000) as [Hlt | Hge].
    + destruct (IH st' (steps + 1)) as (k & -> & Hk1 & Hk & Hall & Hlast); [lia | lia | ].
      exists (S k). cbn [run]. rewrite E.
      replace (S k - 1)%nat with (S (k - 1)) by lia. cbn [run]. rewrite E.
      destruct (run step k st') as [rs st2] eqn:Ek.
      destruct (run step (k - 1) st') as [rs' st3] eqn:Ek'.
      cbn [fst snd forallb] in *. rewrite Hr, Hall.
      repeat split; try lia.
      destruct Hlast as [Hl | Hl]; [left; exact Hl | right; lia].
    + exists 1%nat. cbn [run]. rewrite E. cbn [fst snd Nat.sub run forallb].
      repeat split; lia.
  - exists 1%nat. cbn [run]. rewrite E. cbn [fst snd Nat.sub run forallb].
    repeat split; try lia. left. rewrite E. exact Hr.
Qed.

(** X10. One click on Run calls [step] at least once and at most 1001 times
    before the interval is cleared, in both files: the callback stops at the
    first call that returns false, or at its 1001st call even though that
    call succeeded (the test [steps < 1000] comes after the call).  Every
    call before the last one succeeded. *)
Theorem run_button_stops_within_1001_steps (st : State) :
  (exists k, runLoop Part000.step 1001 st 0 = Some (k, (run Part000.step k st).2)
     /\ (1 <= k <= 1001)%nat
     /\ forallb succeeded (run Part000.step (k - 1) st).1 = true
     /\ (succeeded (Part000.step (run Part000.step (k - 1) st).2).1 = false
         \/ k = 1001%nat))
  /\ (exists k, runLoop ScriptJs.step 1001 st 0 = Some (k, (run ScriptJs.step k st).2)
        /\ (1 <= k <= 1001)%nat
        /\ forallb succeeded (run ScriptJs.step (k - 1) st).1 = true
        /\ (succeeded (ScriptJs.step (run ScriptJs.step (k - 1) st).2).1 = false
            \/ k = 1001%nat)).
Proof.
  split.
  - destruct (runLoop_bounded Part000.step 1001 st 0) as (k & E & H1 & H2 & H3 & H4);
      [lia | vm_compute; lia | ].
    exists k. repeat split; try assumption; try lia.
    destruct H4 as [H4 | H4]; [left; exact H4 | right; lia].
  - destruct (runLoop_bounded ScriptJs.step 1001 st 0) as (k & E & H1 & H2 & H3 & H4);
      [lia | vm_compute; lia | ].
    exists k. repeat split; try assumption; try lia.
    destruct H4 as [H4 | H4]; [left; exact H4 | right; lia].
Qed.

(** ** The arithmetic and logic instructions, one step at a time *)

Lemma int32_shiftr (z : Z) :
  int32 z <-> Z.shiftr z 31 = 0 \/ Z.shiftr z 31 = -1.
Proof.
  rewrite Z.shiftr_div_pow2 by lia. unfold int32.
  pose proof (Z.div_mod z (2 ^ 31)) as Hdm.
  pose proof (Z.mod_pos_bound z (2 ^ 31)) as Hb.
  change (2 ^ 31) with 2147483648 in *. lia.
Qed.

Lemma int32_land (a b : Z) : int32 a -> int32 b -> int32 (Z.land a b).
Proof.
  rewrite !int32_shiftr, Z.shiftr_land.
  intros [-> | ->] [-> | ->]; [left | left | left | right]; reflexivity.
Qed.

Lemma int32_lor (a b : Z) : int32 a -> int32 b -> int32 (Z.lor a b).
Proof.
  rewrite !int32_shiftr, Z.shiftr_lor.
  intros [-> | ->] [-> | ->]; [left | right | right | right]; reflexivity.
Qed.

Lemma int32_bool (b : bool) : int32 (if b then 1 else 0).
Proof. unfold int32. destruct b; lia. Qed.

Lemma aluR_exact (op : string) (v1 v2 : Z) :
  includes ["ADD"; "SUB"; "AND"; "OR"; "SLT"] op = true ->
  int32 v1 -> int32 v2 ->
  aluR op (Num v1) (Num v2) = Num (exactR op v1 v2) /\ int32 (exactR op v1 v2).
Proof.
  intros Hop H1 H2. revert Hop. unfold exactR.
  repeat rewrite includes_cons. rewrite includes_nil.
  destruct (String.eqb_spec op "ADD") as [E | _];
    [subst op; intros _; split; [apply add_value; assumption | apply wrap32_int32] | ].
  destruct (String.eqb_spec op "SUB") as [E | _];
    [subst op; intros _; split; [apply sub_value; assumption | apply wrap32_int32] | ].
  destruct (String.eqb_spec op "AND") as [E | _].
  { subst op. intros _. split; [ | apply int32_land; assumption].
    unfold aluR. concrete_op. rewrite js_or_zero. unfold js_and, ToInt32.
    rewrite (wrap32_id v1 H1), (wrap32_id v2 H2).
    rewrite wrap32_id by (apply int32_land; assumption). reflexivity. }
  destruct (String.eqb_spec op "OR") as [E | _].
  { subst op. intros _. split; [ | apply int32_lor; assumption].
    unfold aluR. concrete_op. rewrite js_or_zero. unfold js_or at 1, ToInt32.
    rewrite (wrap32_id v1 H1), (wrap32_id v2 H2).
    rewrite wrap32_id by (apply int32_lor; assumption). reflexivity. }
  destruct (String.eqb_spec op "SLT") as [E | _]; [ | discriminate].
  subst op. intros _. split; [ | apply int32_bool].
  unfold aluR. concrete_op. unfold js_lt, bool_to_Number.
  destruct (v1 <? v2); reflexivity.
Qed.

Lemma rTypes_of_exact (op : string) :
  includes ["ADD"; "SUB"; "AND"; "OR"; "SLT"] op = true -> includes rTypes op = true.
Proof.
  unfold rTypes. repeat rewrite includes_cons. repeat rewrite includes_nil.
  destruct (String.eqb_spec op "ADD") as [E | _]; [subst op; reflexivity | ].
  destruct (String.eqb_spec op "SUB") as [E | _]; [subst op; reflexivity | ].
  destruct (String.eqb_spec op "AND") as [E | _]; [subst op; reflexivity | ].
  destruct (String.eqb_spec op "OR") as [E | _]; [subst op; reflexivity | ].
  destruct (String.eqb_spec op "SLT") as [E | _]; [subst op; reflexivity | discriminate].
Qed.

(** What a step does once the value for the destination is known. *)
Lemma step_writes (st : State) (i : Instr) (t1 : string) (d res : Z) (value : Number) :
  regs_ok (regs st) ->
  halted st = false ->
  fetch st = Some i ->
  Part000.execute (opOf i) (partsOf i) st =
    (Normal NoNote, writeBack (regIndex t1) value st) ->
  regIndex t1 = Num d -> 0 < d < 32 ->
  value = Num res -> int32 res ->
  let after :=
    set_pc (pc st + 4)
      (log (LogStep (pc st) (text i) NoNote)
         (set_regs (<[Z.to_nat d := res]> (regs st)) st)) in
  Part000.step st = (Executed (binary i), after)
  /\ ScriptJs.step st = (Executed (binary i), after)
  /\ regGet (regs after) (Num d) = VNum (Num res).
Proof.
  intros Hok Hh Hf Hex Hd Hrange -> Hres after.
  assert (Part000.step st = (Executed (binary i), after)) as E.
  { rewrite (step_running st i Hh Hf), Hex, Hd.
    rewrite writeBack_register by lia.
    rewrite (wrap32_id res Hres). reflexivity. }
  rewrite step_agree, E. repeat split.
  unfold after, regGet. cbn [regs set_pc log set_logs set_regs].
  destruct (Z.leb_spec 0 d); [ | lia].
  rewrite list_lookup_insert_eq; [reflexivity | ].
  destruct Hok as [Hlen _]. lia.
Qed.

(** X11. When the instruction at the program counter is ADD, SUB, AND, OR or
    SLT with operands rd, rs1, rs2, rs1 and rs2 hold v1 and v2 and rd is one
    of the registers 1..31, the step succeeds in both files and rd receives:
    v1 + v2, resp. v1 - v2, reduced to the signed 32-bit range; the bitwise
    and, resp. or, of v1 and v2, exactly; 1 if v1 < v2 as signed integers and
    0 otherwise.  Nothing else changes but the program counter and the
    trace. *)
Theorem register_forms_are_exact
    (st : State) (i : Instr) (t1 t2 t3 : string) (d v1 v2 : Z) :
  regs_ok (regs st) ->
  halted st = false ->
  fetch st = Some i ->
  includes ["ADD"; "SUB"; "AND"; "OR"; "SLT"] (opOf i) = true ->
  partsOf i !! 1%nat = Some t1 ->
  partsOf i !! 2%nat = Some t2 ->
  partsOf i !! 3%nat = Some t3 ->
  regIndex t1 = Num d -> 0 < d < 32 ->
  regGet (regs st) (regIndex t2) = VNum (Num v1) ->
  regGet (regs st) (regIndex t3) = VNum (Num v2) ->
  let after :=
    set_pc (pc st + 4)
      (log (LogStep (pc st) (text i) NoNote)
         (set_regs (<[Z.to_nat d := exactR (opOf i) v1 v2]> (regs st)) st)) in
  Part000.step st = (Executed (binary i), after)
  /\ ScriptJs.step st = (Executed (binary i), after)
  /\ regGet (regs after) (Num d) = VNum (Num (exactR (opOf i) v1 v2)).
Proof.
  intros Hok Hh Hf Hop H1 H2 H3 Hd Hrange Hv1 Hv2.
  destruct (aluR_exact (opOf i) v1 v2 Hop
              (regGet_int32 _ _ _ Hok Hv1) (regGet_int32 _ _ _ Hok Hv2)) as [Ealu Hres].
  apply (step_writes st i t1 d (exactR (opOf i) v1 v2)
           (aluR (opOf i) (operand st t2) (operand st t3))); try assumption.
  - apply execute_rType; try assumption. apply rTypes_of_exact, Hop.
  - unfold operand. rewrite Hv1, Hv2. exact Ealu.
Qed.

Lemma register_forms_are_exact_witness :
  let st := (run Part000.step 2 (fresh scenarioLogic)).2 in
  let i := mkInstr 8 "SLT x3, x1, x2" "??????? ????? ????? ??? 0110011" in
  Part000.step st =
    (Executed (binary i),
     set_pc (pc st + 4)
       (log (LogStep (pc st) (text i) NoNote)
          (set_regs (<[Z.to_nat 3 := exactR (opOf i) 10 20]> (regs st)) st))).
Proof.
  intros st i.
  refine (proj1 (register_forms_are_exact st i "x3" "x1" "x2" 3 10 20
                   _ _ _ _ _ _ _ _ _ _ _));
    try (vm_compute; reflexivity).
  - regs_ok_by_computation.
  - lia.
Defined.

(** X12. MULT rd, rs1, rs2 with rs1 and rs2 holding v1 and v2 whose product
    is below 2^53 in magnitude leaves in rd (one of 1..31) the product
    reduced to the signed 32-bit range, in both files. *)
Theorem mult_is_exact_below_2_53
    (st : State) (i : Instr) (t1 t2 t3 : string) (d v1 v2 : Z) :
  regs_ok (regs st) ->
  halted st = false ->
  fetch st = Some i ->
  opOf i = "MULT" ->
  partsOf i !! 1%nat = Some t1 ->
  partsOf i !! 2%nat = Some t2 ->
  partsOf i !! 3%nat = Some t3 ->
  regIndex t1 = Num d -> 0 < d < 32 ->
  regGet (regs st) (regIndex t2) = VNum (Num v1) ->
  regGet (regs st) (regIndex t3) = VNum (Num v2) ->
  Z.abs (v1 * v2) < 2 ^ 53 ->
  let after :=
    set_pc (pc st + 4)
      (log (LogStep (pc st) (text i) NoNote)
         (set_regs (<[Z.to_nat d := wrap32 (v1 * v2)]> (regs st)) st)) in
  Part000.step st = (Executed (binary i), after)
  /\ ScriptJs.step st = (Executed (binary i), after)
  /\ regGet (regs after) (Num d) = VNum (Num (wrap32 (v1 * v2))).
Proof.
  intros Hok Hh Hf Hop H1 H2 H3 Hd Hrange Hv1 Hv2 Hsmall.
  apply (step_writes st i t1 d (wrap32 (v1 * v2))
           (aluR (opOf i) (operand st t2) (operand st t3))); try assumption.
  - apply execute_rType; try assumption. rewrite Hop. reflexivity.
  - unfold operand. rewrite Hv1, Hv2, Hop. apply mult_value, Hsmall.
  - apply wrap32_int32.
Qed.

Lemma mult_is_exact_below_2_53_witness :
  let st := (run Part000.step 4 (fresh scenarioA)).2 in
  let i := mkInstr 16 "MULT x5, x1, x2" "??????? ????? ????? ??? 0110011" in
  Part000.step st =
    (Executed (binary i),
     set_pc (pc st + 4)
       (log (LogStep (pc st) (text i) NoNote)
          (set_regs (<[Z.to_nat 5 := wrap32 (15 * 25)]> (regs st)) st))).
Proof.
  intros st i.
  refine (proj1 (mult_is_exact_below_2_53 st i "x5" "x1" "x2" 5 15 25
                   _ _ _ _ _ _ _ _ _ _ _ _));
    try (vm_compute; reflexivity).
  - regs_ok_by_computation.
  - lia.
Defined.

Lemma aluI_exact (op : string) (v1 imm : Z) :
  includes iTypes op = true ->
  int32 v1 -> Z.abs imm < 2 ^ 52 ->
  aluI op (Num v1) (Num imm) = Num (exactI op v1 imm) /\ int32 (exactI op v1 imm).
Proof.
  intros Hop H1 H2. revert Hop. unfold exactI, iTypes.
  repeat rewrite includes_cons. rewrite includes_nil.
  destruct (String.eqb_spec op "ADDI") as [E | _];
    [subst op; intros _; split; [apply addi_value; assumption | apply wrap32_int32] | ].
  destruct (String.eqb_spec op "SLTI") as [E | _]; [ | discriminate].
  subst op. intros _. split; [ | apply int32_bool].
  unfold aluI. concrete_op. unfold js_lt, bool_to_Number.
  destruct (v1 <? imm); reflexivity.
Qed.

(** X13. When the instruction at the program counter is ADDI or SLTI with
    operands rd, rs1, imm, rs1 holds v1, the immediate token parses to the
    integer imm (below 2^52 in magnitude) and rd is one of the registers
    1..31, the step succeeds and rd receives v1 + imm reduced to the signed
    32-bit range, resp. 1 if v1 < imm and 0 otherwise.  Both files. *)
Theorem immediate_forms_are_exact
    (st : State) (i : Instr) (t1 t2 : string) (d v1 imm : Z) :
  regs_ok (regs st) ->
  halted st = false ->
  fetch st = Some i ->
  includes iTypes (opOf i) = true ->
  partsOf i !! 1%nat = Some t1 ->
  partsOf i !! 2%nat = Some t2 ->
  parseInt (partsOf i !! 3%nat) = Num imm -> Z.abs imm < 2 ^ 52 ->
  regIndex t1 = Num d -> 0 < d < 32 ->
  regGet (regs st) (regIndex t2) = VNum (Num v1) ->
  let after :=
    set_pc (pc st + 4)
      (log (LogStep (pc st) (text i) NoNote)
         (set_regs (<[Z.to_nat d := exactI (opOf i) v1 imm]> (regs st)) st)) in
  Part000.step st = (Executed (binary i), after)
  /\ ScriptJs.step st = (Executed (binary i), after)
  /\ regGet (regs after) (Num d) = VNum (Num (exactI (opOf i) v1 imm)).
Proof.
  intros Hok Hh Hf Hop H1 H2 Himm Hsmall Hd Hrange Hv1.
  destruct (aluI_exact (opOf i) v1 imm Hop (regGet_int32 _ _ _ Hok Hv1) Hsmall)
    as [Ealu Hres].
  apply (step_writes st i t1 d (exactI (opOf i) v1 imm)
           (aluI (opOf i) (operand st t2) (parseInt (partsOf i !! 3%nat))));
    try assumption.
  - apply execute_iType; assumption.
  - unfold operand. rewrite Hv1, Himm. exact Ealu.
Qed.

Lemma immediate_forms_are_exact_witness :
  let st := (Part000.step (fresh negativeImmediate)).2 in
  let i := mkInstr 4 "ADDI x2, x1, -12" "??????? ????? ????? ??? 0010011" in
  Part000.step st =
    (Executed (binary i),
     set_pc (pc st + 4)
       (log (LogStep (pc st) (text i) NoNote)
          (set_regs (<[Z.to_nat 2 := exactI (opOf i) 5 (-12)]> (regs st)) st))).
Proof.
  intros st i.
  refine (proj1 (immediate_forms_are_exact st i "x2" "x1" 2 5 (-12)
                   _ _ _ _ _ _ _ _ _ _ _));
    try (vm_compute; reflexivity).
  - regs_ok_by_computation.
  - lia.
Defined.

(** ** Loads and stores, one step at a time *)







(** ** Tokens past the operands *)

Lemma execute_ext (op : string) (parts parts' : list string) (st : State) :
  parts !! 1%nat = parts' !! 1%nat ->
  parts !! 2%nat = parts' !! 2%nat ->
  parts !! 3%nat = parts' !! 3%nat ->
  Part000.execute op parts st = Part000.execute op parts' st.
Proof.
  intros H1 H2 H3. unfold Part000.execute. rewrite H1, H2, H3. reflexivity.
Qed.

Lemma hd_lookup (l : list string) : hd "" l = default "" (l !! 0%nat).
Proof. destruct l; reflexivity. Qed.

Lemma take_lookup_eq (l l' : list string) (k : nat) :
  take 4 l = take 4 l' -> (k < 4)%nat -> l !! k = l' !! k.
Proof.
  intros H Hk.
  rewrite <- (lookup_take_lt l 4 k Hk), <- (lookup_take_lt l' 4 k Hk), H.
  reflexivity.
Qed.

(** X16. A step looks at the first four tokens of its instruction only (the
    mnemonic and three operands): whatever follows them on the line, such
    as a trailing comment, has no effect.  Two instruction lists whose
    fetched instructions agree on these tokens give, from the same object,
    steps with the same result kind, registers, data memory, program
    counter and [halted].  Both files. *)
Theorem tokens_past_the_third_operand_are_ignored
    (st : State) (im : list Instr) (i j : Instr) :
  halted st = false ->
  fetch st = Some i ->
  fetch (set_instrMemory im st) = Some j ->
  take 4 (partsOf i) = take 4 (partsOf j) ->
  let r1 := Part000.step st in
  let r2 := Part000.step (set_instrMemory im st) in
  succeeded r1.1 = succeeded r2.1
  /\ regs r1.2 = regs r2.2
  /\ dataMemory r1.2 = dataMemory r2.2
  /\ pc r1.2 = pc r2.2
  /\ halted r1.2 = halted r2.2
  /\ ScriptJs.step st = r1
  /\ ScriptJs.step (set_instrMemory im st) = r2.
Proof.
  intros Hh Hf Hf' Htake r1 r2. subst r1 r2.
  rewrite !step_agree.
  rewrite (step_running st i Hh Hf).
  rewrite (step_running (set_instrMemory im st) j Hh Hf').
  assert (opOf j = opOf i) as Eop.
  { unfold opOf. rewrite !hd_lookup, (take_lookup_eq _ _ 0 Htake) by lia. reflexivity. }
  rewrite Eop, execute_instrMemory.
  rewrite (execute_ext (opOf i) (partsOf j) (partsOf i))
    by (symmetry; apply take_lookup_eq; [exact Htake | lia]).
  destruct (Part000.execute (opOf i) (partsOf i) st) as [[note | ] st1];
    simpl; repeat split.
Qed.

Lemma tokens_past_the_third_operand_are_ignored_witness :
  let st := (Part000.step (fresh uncommented)).2 in
  let im := instrMemory (fresh commented) in
  regs (Part000.step st).2 = regs (Part000.step (set_instrMemory im st)).2.
Proof.
  intros st im.
  refine (proj1 (proj2 (tokens_past_the_third_operand_are_ignored st im
    (mkInstr 4 "ADD x3, x1, x1" "??????? ????? ????? ??? 0110011")
    (mkInstr 4 "ADD x3, x1, x1  # x3 = 30" "??????? ????? ????? ??? 0110011")
    _ _ _ _))); vm_compute; reflexivity.
Defined.

(** ** Register tokens *)

Lemma parseInt_unfold (arg : option string) :
  parseInt arg =
    let '(neg, s1) :=
      signOf (trimStart (match arg with None => "undefined" | Some s => s end)) in
    let '(R, s2) := radixOf s1 in
    match parseDigits R None s2 with
    | None => NaN
    | Some v => if neg then js_neg (roundToDouble v) else roundToDouble v
    end.
Proof. reflexivity. Qed.

Ltac case_ascii c :=
  destruct c as [b0 b1 b2 b3 b4 b5 b6 b7];
  destruct b0, b1, b2, b3, b4, b5, b6, b7.

Lemma isDigit_not_special (c : ascii) :
  isDigit c = true ->
  isWhiteSpace c = false /\ (forall s, signOf (String c s) = (false, String c s)).
Proof.
  case_ascii c; intros H;
    first [ exfalso; vm_compute in H; discriminate H
          | split; [vm_compute; reflexivity | intros s; reflexivity] ].
Qed.

Lemma radixOf_digits (c : ascii) (s : string) :
  isDigit c = true ->
  (forall c2 s2, s = String c2 s2 -> isDigit c2 = true) ->
  radixOf (String c s) = (10, String c s).
Proof.
  intros Hc Hs. destruct s as [ | c2 s2].
  - revert Hc. case_ascii c; intros Hc; reflexivity.
  - specialize (Hs c2 s2 eq_refl). revert Hc Hs.
    case_ascii c; intros Hc; try reflexivity;
      case_ascii c2; intros Hs;
      first [ exfalso; vm_compute in Hs; discriminate Hs | reflexivity ].
Qed.

Lemma digitValue_digit (c : ascii) :
  isDigit c = true ->
  digitValue c = Some (Z.of_N (N_of_ascii c) - 48)
  /\ 0 <= Z.of_N (N_of_ascii c) - 48 < 10.
Proof.
  unfold isDigit, digitValue. intros H.
  apply andb_true_iff in H as [H1 H2]. apply N.leb_le in H1, H2.
  destruct (Z.leb_spec 48 (Z.of_N (N_of_ascii c))); [ | lia].
  destruct (Z.leb_spec (Z.of_N (N_of_ascii c)) 57); [ | lia].
  split; [reflexivity | lia].
Qed.

Lemma parseDigits_digits (s : string) (acc : option Z) :
  Forall (fun c => isDigit c = true) (chars s) ->
  parseDigits 10 acc s =
    match s with
    | EmptyString => acc
    | _ => Some (fold_left (fun a c => 10 * a + (Z.of_N (N_of_ascii c) - 48))
                   (chars s) (default 0 acc))
    end.
Proof.
  revert acc. induction s as [ | c s IH]; intros acc H; [reflexivity | ].
  unfold chars in H. cbn [list_ascii_of_string] in H.
  apply Forall_cons_1 in H as [Hc Hs].
  destruct (digitValue_digit c Hc) as [Ed Hd].
  cbn [parseDigits]. rewrite Ed.
  destruct (Z.ltb_spec (Z.of_N (N_of_ascii c) - 48) 10); [ | lia].
  rewrite (IH _ Hs). unfold chars. cbn [list_ascii_of_string fold_left default].
  destruct s; reflexivity.
Qed.

Lemma keepDigits_digits (s : string) :
  Forall (fun c => isDigit c = true) (chars (keepDigits s)).
Proof.
  induction s as [ | c s IH]; [constructor | ].
  cbn [keepDigits]. destruct (isDigit c) eqn:E; [ | exact IH].
  unfold chars. cbn [list_ascii_of_string]. constructor; assumption.
Qed.

Lemma roundToDouble_not_NaN (z : Z) : isNaN (roundToDouble z) = false.
Proof.
  unfold roundToDouble.
  destruct (Z.abs z <? 2 ^ 53); [reflexivity | ].
  cbv zeta. destruct (2 ^ 1024 <=? _); reflexivity.
Qed.

Lemma parseInt_digits (s : string) :
  s <> "" ->
  Forall (fun c => isDigit c = true) (chars s) ->
  parseInt (Some s) = roundToDouble (decimalValue s).
Proof.
  intros Hne H. destruct s as [ | c s]; [congruence | ].
  pose proof H as H'. unfold chars in H'. cbn [list_ascii_of_string] in H'.
  apply Forall_cons_1 in H' as [Hc Hs].
  destruct (isDigit_not_special c Hc) as [Hws Hsign].
  rewrite parseInt_unfold. cbn [trimStart]. rewrite Hws, Hsign.
  rewrite radixOf_digits; [ | exact Hc | ].
  - rewrite (parseDigits_digits _ None H). reflexivity.
  - intros c2 s2 ->. cbn [list_ascii_of_string] in Hs.
    apply Forall_cons_1 in Hs as [Hc2 _]. exact Hc2.
Qed.

Lemma fold_digits_bound (l : list ascii) (acc : Z) :
  Forall (fun c => isDigit c = true) l -> 0 <= acc ->
  0 <= fold_left (fun a c => 10 * a + (Z.of_N (N_of_ascii c) - 48)) l acc
    <= (acc + 1) * 10 ^ Z.of_nat (length l) - 1.
Proof.
  revert acc. induction l as [ | c l IH]; intros acc H Hacc.
  - simpl. lia.
  - apply Forall_cons_1 in H as [Hc Hl].
    destruct (digitValue_digit c Hc) as [_ Hd].
    cbn [fold_left length].
    specialize (IH (10 * acc + (Z.of_N (N_of_ascii c) - 48)) Hl ltac:(lia)).
    rewrite Nat2Z.inj_succ, Z.pow_succ_r by lia.
    assert (0 < 10 ^ Z.of_nat (length l)) by (apply Z.pow_pos_nonneg; lia).
    nia.
Qed.

Lemma chars_length (s : string) : length (chars s) = String.length s.
Proof. induction s as [ | c s IH]; [reflexivity | ]. simpl. f_equal. exact IH. Qed.

(** X17. [getRegIndex] on a token: the characters that are no decimal digit
    are ignored; a token without digit resolves to register 0; otherwise the
    index is the number its digits spell in base 10, in their order (as a
    double: exactly that number for up to 15 digits).  The number spelled
    is never negative and the index is never NaN; [getRegIndex] throws only
    on [undefined]. *)
Theorem register_token_resolution (t : string) :
  (keepDigits t = "" -> regIndex t = Num 0)
  /\ (keepDigits t <> "" -> regIndex t = roundToDouble (decimalValue (keepDigits t)))
  /\ (keepDigits t <> "" -> (String.length (keepDigits t) <= 15)%nat ->
      regIndex t = Num (decimalValue (keepDigits t)))
  /\ 0 <= decimalValue (keepDigits t)
  /\ isNaN (regIndex t) = false
  /\ getRegIndex (Some t) = mret (regIndex t)
  /\ (forall st : State, getRegIndex None st = (Throw, st)).
Proof.
  pose proof (keepDigits_digits t) as Hd.
  pose proof (fold_digits_bound (chars (keepDigits t)) 0 Hd (Z.le_refl 0)) as Hb.
  fold (decimalValue (keepDigits t)) in Hb. rewrite chars_length in Hb.
  assert (keepDigits t <> "" ->
          regIndex t = roundToDouble (decimalValue (keepDigits t))) as Hround.
  { intros Hne. unfold regIndex. rewrite (parseInt_digits _ Hne Hd).
    rewrite roundToDouble_not_NaN. reflexivity. }
  split; [ | split; [exact Hround | split; [ | split; [lia | split; [ | split]]]]].
  - intros E. unfold regIndex. rewrite E. reflexivity.
  - intros Hne Hlen. rewrite (Hround Hne). apply roundToDouble_small.
    assert (10 ^ Z.of_nat (String.length (keepDigits t)) <= 10 ^ 15)
      by (apply Z.pow_le_mono_r; lia).
    change (2 ^ 53) with 9007199254740992.
    change (10 ^ 15) with 1000000000000000 in *. lia.
  - destruct (string_dec (keepDigits t) "") as [E | Hne].
    + unfold regIndex. rewrite E. reflexivity.
    + rewrite (Hround Hne). apply roundToDouble_not_NaN.
  - reflexivity.
  - reflexivity.
Qed.

Lemma register_token_resolution_witness :
  regIndex "(x12)," = Num (decimalValue (keepDigits "(x12),")).
Proof.
  refine (proj1 (proj2 (proj2 (register_token_resolution "(x12),"))) _ _).
  - vm_compute. discriminate.
  - vm_compute. lia.
Defined.

(** ** Tokens *)

Lemma chars_app_char (s : string) (c : ascii) :
  chars (String.append s (String c EmptyString)) = (chars s ++ [c])%list.
Proof.
  induction s as [ | d s IH]; [reflexivity | ].
  unfold chars in *. simpl. rewrite IH. reflexivity.
Qed.

Lemma splitWsFrom_tokens (P : ascii -> Prop) (inws : bool) (cur s : string) :
  Forall P (chars s) ->
  Forall (fun c => P c /\ isWhiteSpace c = false) (chars cur) ->
  Forall (fun tok => Forall (fun c => P c /\ isWhiteSpace c = false) (chars tok))
    (splitWsFrom inws cur s).
Proof.
  revert inws cur. induction s as [ | c s IH]; intros inws cur Hs Hcur.
  - simpl. constructor; [exact Hcur | constructor].
  - unfold chars in Hs. cbn [list_ascii_of_string] in Hs.
    apply Forall_cons_1 in Hs as [Hc Hs].
    cbn [splitWsFrom]. destruct (isWhiteSpace c) eqn:Ews.
    + destruct inws.
      * apply IH; [exact Hs | constructor].
      * constructor; [exact Hcur | ]. apply IH; [exact Hs | constructor].
    + apply IH; [exact Hs | ].
      rewrite chars_app_char. apply Forall_app. split; [exact Hcur | ].
      constructor; [split; assumption | constructor].
Qed.

Lemma replaceAll_chars (c by_ : ascii) (P : ascii -> Prop) (s : string) :
  P by_ ->
  (forall d, Ascii.eqb d c = false -> P d) ->
  Forall P (chars (replaceAll c by_ s)).
Proof.
  intros Hby HP. induction s as [ | d s IH]; [constructor | ].
  unfold chars in *. cbn [replaceAll list_ascii_of_string].
  constructor; [ | exact IH].
  destruct (Ascii.eqb d c) eqn:E; [exact Hby | apply HP, E].
Qed.

Lemma replaceAll_keeps (c by_ : ascii) (P : ascii -> Prop) (s : string) :
  P by_ -> Forall P (chars s) -> Forall P (chars (replaceAll c by_ s)).
Proof.
  intros Hby. induction s as [ | d s IH]; intros H; [constructor | ].
  unfold chars in *. cbn [replaceAll list_ascii_of_string] in *.
  apply Forall_cons_1 in H as [Hd Hs].
  constructor; [ | apply IH, Hs].
  destruct (Ascii.eqb d c); assumption.
Qed.

(** X18. The decode line of [step] always yields at least one token, and no
    token contains a separator: white space, a comma or a parenthesis. *)
Theorem decode_tokens_have_no_separator (txt : string) :
  decode txt <> []
  /\ Forall (fun tok => Forall (fun c => isSeparator c = false) (chars tok))
       (decode txt).
Proof.
  split; [apply decode_nonempty | ].
  unfold decode, splitWs.
  assert (Forall plain
            (chars (replaceAll ")" " " (replaceAll "(" " " (replaceAll "," " " txt)))))
    as Hplain.
  { assert (forall P : ascii -> Prop, P " "%char ->
              forall c s, Forall P (chars s) -> Forall P (chars (replaceAll c " " s)))
      as Hkeep by (intros P Hsp c s; apply replaceAll_keeps, Hsp).
    pose proof (replaceAll_chars "," " " (fun d => Ascii.eqb d "," = false) txt
                  eq_refl (fun d H => H)) as H1.
    pose proof (Hkeep _ eq_refl "("%char _ H1) as H1'.
    pose proof (Hkeep _ eq_refl ")"%char _ H1') as H1''.
    pose proof (replaceAll_chars "(" " " (fun d => Ascii.eqb d "(" = false)
                  (replaceAll "," " " txt) eq_refl (fun d H => H)) as H2.
    pose proof (Hkeep _ eq_refl ")"%char _ H2) as H2'.
    pose proof (replaceAll_chars ")" " " (fun d => Ascii.eqb d ")" = false)
                  (replaceAll "(" " " (replaceAll "," " " txt))
                  eq_refl (fun d H => H)) as H3.
    rewrite Forall_forall in *. intros c Hc.
    split; [apply H1'', Hc | split; [apply H2', Hc | apply H3, Hc]]. }
  pose proof (splitWsFrom_tokens plain false EmptyString _ Hplain
                (List.Forall_nil _)) as H.
  eapply Forall_impl; [exact H | ].
  intros tok Htok. eapply Forall_impl; [exact Htok | ].
  intros c [(H1 & H2 & H3) Hws]. unfold isSeparator.
  rewrite Hws, H1, H2, H3. reflexivity.
Qed.

(** ** The text of the loaded instructions *)

Lemma trimStart_head (s : string) :
  match trimStart s with
  | EmptyString => True
  | String c _ => isWhiteSpace c = false
  end.
Proof.
  induction s as [ | c s IH]; [exact I | ].
  cbn [trimStart]. destruct (isWhiteSpace c) eqn:E; [exact IH | exact E].
Qed.

Lemma trimStart_fixed (s : string) :
  match s with
  | EmptyString => True
  | String c _ => isWhiteSpace c = false
  end -> trimStart s = s.
Proof. destruct s as [ | c s]; [reflexivity | ]. cbn [trimStart]. intros ->. reflexivity. Qed.

Lemma trimEnd_head (s : string) :
  match s with
  | EmptyString => True
  | String c _ => isWhiteSpace c = false
  end ->
  match trimEnd s with
  | EmptyString => True
  | String c _ => isWhiteSpace c = false
  end.
Proof.
  destruct s as [ | c s]; [intros _; exact I | ].
  cbn [trimEnd]. intros E. rewrite E. cbn [andb]. exact E.
Qed.

Lemma trimEnd_idempotent (s : string) : trimEnd (trimEnd s) = trimEnd s.
Proof.
  induction s as [ | c s IH]; [reflexivity | ].
  cbn [trimEnd].
  destruct (isWhiteSpace c && (trimEnd s =? "")%string) eqn:E; [reflexivity | ].
  cbn [trimEnd]. rewrite IH, E. reflexivity.
Qed.

Lemma trim_idempotent (s : string) : trim (trim s) = trim s.
Proof.
  unfold trim.
  rewrite (trimStart_fixed (trimEnd (trimStart s))).
  - apply trimEnd_idempotent.
  - apply trimEnd_head, trimStart_head.
Qed.

(** X19. Every instruction that [loadProgram] records has a text that is
    not empty, does not start with '#' and has no white space at either end
    (trimming it again changes nothing), and a [binary] that is the cosmetic
    bit pattern of that text.  Both files. *)
Theorem loaded_text_is_trimmed (txt : string) (st0 : State) (i : Instr) :
  (i ∈ instrMemory (Part000.loadProgram txt st0) ->
     text i <> "" /\ startsWith "#" (text i) = false /\ trim (text i) = text i
     /\ binary i = Part000.generateFakeBinary (text i))
  /\ (i ∈ instrMemory (ScriptJs.loadProgram txt st0) ->
        text i <> "" /\ startsWith "#" (text i) = false /\ trim (text i) = text i
        /\ binary i = ScriptJs.generateFakeBinary (text i)).
Proof.
  assert (forall f, i ∈ instrMemory (loadProgramWith f txt st0) ->
            text i <> "" /\ startsWith "#" (text i) = false /\ trim (text i) = text i
            /\ binary i = f (text i)) as H.
  { intros f. rewrite loadProgramWith_spec. cbn [instrMemory].
    intros Hin. apply list_elem_of_lookup in Hin as [k Hk].
    rewrite list_lookup_imap in Hk.
    destruct (cleanLines txt !! k) as [c | ] eqn:Ec; [ | discriminate Hk].
    injection Hk as <-. cbn [text binary].
    apply list_elem_of_lookup_2 in Ec. unfold cleanLines in Ec.
    apply list_elem_of_filter in Ec as [Hacc Hin].
    apply list_elem_of_fmap in Hin as (line & -> & _).
    unfold accepted in Hacc. apply andb_true_iff in Hacc as [Hne Hhash].
    apply negb_true_iff in Hne, Hhash.
    split; [ | split; [exact Hhash | split; [apply trim_idempotent | reflexivity]]].
    intros E. rewrite E in Hne. discriminate Hne. }
  split; apply H.
Qed.

Lemma loaded_text_is_trimmed_witness :
  let i := mkInstr 4 "ADDI x2, x0, 25" "??????? ????? ????? ??? 0010011" in
  text i <> "" /\ startsWith "#" (text i) = false /\ trim (text i) = text i
  /\ binary i = Part000.generateFakeBinary (text i).
Proof.
  intros i.
  refine (proj1 (loaded_text_is_trimmed scenarioA new_RISCV_Simulator i) _).
  apply list_elem_of_lookup. exists 1%nat. vm_compute. reflexivity.
Defined.

(** ** The cosmetic bit pattern *)

Lemma lookupOpcode_values (table : list (string * string)) (P : string -> Prop) (op : string) :
  P "0000000" -> Forall (fun kv => P kv.2) table -> P (lookupOpcode table op).
Proof.
  intros Hdef. induction table as [ | [k v] table IH]; intros H; [exact Hdef | ].
  apply Forall_cons_1 in H as [Hv Ht].
  cbn [lookupOpcode]. destruct (k =? op)%string; [exact Hv | apply IH, Ht].
Qed.

Ltac seven_bits :=
  split;
  [ reflexivity
  | unfold chars; cbn [list_ascii_of_string];
    repeat (apply List.Forall_cons; [first [left; reflexivity | right; reflexivity] | ]);
    apply List.Forall_nil ].

(** X20. [generateFakeBinary] returns, for every line and in both files, the
    fixed mask followed by an opcode of seven binary digits: 31 characters
    in all. *)
Theorem fake_binary_format (instr : string) :
  (exists opcode, Part000.generateFakeBinary instr = String.append binaryPrefix opcode
     /\ sevenBits opcode)
  /\ (exists opcode, ScriptJs.generateFakeBinary instr = String.append binaryPrefix opcode
        /\ sevenBits opcode)
  /\ String.length (Part000.generateFakeBinary instr) = 31%nat
  /\ String.length (ScriptJs.generateFakeBinary instr) = 31%nat.
Proof.
  assert (forall op, sevenBits (lookupOpcode Part000.opcodes op)) as H1.
  { intros op. apply lookupOpcode_values; [seven_bits | ].
    unfold Part000.opcodes. repeat (constructor; [seven_bits | ]). constructor. }
  assert (forall op, sevenBits (lookupOpcode ScriptJs.opcodes op)) as H2.
  { intros op. apply lookupOpcode_values; [seven_bits | ].
    unfold ScriptJs.opcodes. repeat (constructor; [seven_bits | ]). constructor. }
  assert (forall s, sevenBits s -> String.length (String.append binaryPrefix s) = 31%nat)
    as Hlen.
  { intros s [Hs _]. unfold binaryPrefix.
    cbv [String.append]. cbn [String.length]. rewrite Hs. reflexivity. }
  split; [ | split; [ | split]].
  - eexists. split; [reflexivity | apply H1].
  - eexists. split; [reflexivity | apply H2].
  - apply (Hlen _ (H1 _)).
  - apply (Hlen _ (H2 _)).
Qed.

(** ** Addresses that are no numbers *)

Lemma effectiveAddress_NaN (st : State) (parts : list string) (base : string) :
  parseInt (parts !! 3%nat) = NaN \/ regGet (regs st) (regIndex base) = Undefined ->
  effectiveAddress st parts base = NaN.
Proof.
  unfold effectiveAddress, operand. intros [-> | ->].
  - apply js_add_NaN_r.
  - reflexivity.
Qed.



(** After a store to the NaN cell, a load with another bad offset finds the
    stored value. *)
Example badOffsets_alias :
  take 3 (regs (run Part000.step 3 (fresh badOffsets)).2) = [0; 42; 42].
Proof. vm_compute. reflexivity. Qed.

(** ** The value a step returns *)

(** X22. After a program is loaded and [n] steps have succeeded, a further
    successful step returns the cosmetic bit pattern that
    [generateFakeBinary] gives for the n-th accepted line.  Both files, each
    with its own [generateFakeBinary]. *)
Theorem step_returns_the_binary_of_its_line (txt : string) (st0 : State) (n : nat) :
  let r1 := run Part000.step (S n) (Part000.loadProgram txt st0) in
  let r2 := run ScriptJs.step (S n) (ScriptJs.loadProgram txt st0) in
  (forallb succeeded r1.1 = true ->
   exists c, cleanLines txt !! n = Some c
     /\ last r1.1 = Some (Executed (Part000.generateFakeBinary c)))
  /\ (forallb succeeded r2.1 = true ->
      exists c, cleanLines txt !! n = Some c
        /\ last r2.1 = Some (Executed (ScriptJs.generateFakeBinary c))).
Proof.
  assert (forall f,
    forallb succeeded (run Part000.step (S n) (loadProgramWith f txt st0)).1 = true ->
    exists c, cleanLines txt !! n = Some c
      /\ last (run Part000.step (S n) (loadProgramWith f txt st0)).1
         = Some (Executed (f c))) as H.
  { intros f. rewrite run_snoc. cbn [fst]. rewrite forallb_app, last_snoc.
    intros Hall. apply andb_true_iff in Hall as [Hrs Hr].
    cbn [forallb] in Hr. rewrite andb_true_r in Hr.
    pose proof (fetch_loaded f txt st0 n Hrs) as Hf. cbn zeta in Hf.
    set (st := (run Part000.step n (loadProgramWith f txt st0)).2) in *.
    destruct (halted st) eqn:Hh.
    { unfold Part000.step in Hr. rewrite Hh in Hr. discriminate Hr. }
    destruct (cleanLines txt !! n) as [c | ] eqn:Ec.
    - exists c. split; [reflexivity | ].
      cbn [fmap option_fmap option_map] in Hf.
      rewrite (step_running st _ Hh Hf) in Hr |- *.
      destruct (Part000.execute _ _ st) as [[note | ] st1]; [reflexivity | discriminate Hr].
    - cbn [fmap option_fmap option_map] in Hf.
      rewrite (step_fetch_miss st Hh Hf) in Hr. discriminate Hr. }
  intros r1 r2. split; [apply H | ].
  subst r2. rewrite (run_ext _ _ _ _ step_agree). apply H.
Qed.

Lemma step_returns_the_binary_of_its_line_witness :
  exists c, cleanLines scenarioA !! 2%nat = Some c
    /\ last (run Part000.step 3 (Part000.loadProgram scenarioA new_RISCV_Simulator)).1
       = Some (Executed (Part000.generateFakeBinary c)).
Proof.
  refine (proj1 (step_returns_the_binary_of_its_line scenarioA new_RISCV_Simulator 2) _).
  vm_compute. reflexivity.
Defined.

(** ** Register indices outside 0..31, in full *)

Lemma aluR_defaulted (op : string) (v1 v2 : Value) :
  includes rTypes op = true ->
  wordOrUndefined v1 -> wordOrUndefined v2 ->
  v1 = Undefined \/ v2 = Undefined ->
  aluR op (ToNumber v1) (ToNumber v2) = Num (defaultedR op (asWord v1) (asWord v2))
  /\ int32 (defaultedR op (asWord v1) (asWord v2)).
Proof.
  intros Hop [-> | (z1 & -> & Hz1)] [-> | (z2 & -> & Hz2)] Hu;
    [ | | | destruct Hu as [Hu | Hu]; discriminate Hu];
    revert Hop; unfold rTypes, aluR, defaultedR;
    case_op op; intros Hop; try discriminate Hop;
    cbn [ToNumber asWord default from_option id]; rewrite ?js_or_zero;
    cbn [js_add js_sub js_neg js_mul js_and js_or js_shl js_lt bool_to_Number
         ToInt32 ToUint32];
    rewrite ?Z.land_0_l, ?Z.land_0_r, ?Z.lor_0_l, ?Z.lor_0_r,
      ?Z.shiftl_0_l, ?Z.shiftl_0_r, ?wrap32_wrap32;
    try rewrite (wrap32_id z1 Hz1); try rewrite (wrap32_id z2 Hz2);
    rewrite ?Z.land_0_l, ?Z.land_0_r, ?Z.lor_0_l, ?Z.lor_0_r,
      ?Z.shiftl_0_l, ?Z.shiftl_0_r, ?wrap32_wrap32;
    try rewrite (wrap32_id z1 Hz1); try rewrite (wrap32_id z2 Hz2);
    (split; [reflexivity | first [assumption | unfold int32; cbn; lia]]).
Qed.

Lemma aluI_undefined (op : string) (imm : Number) :
  includes iTypes op = true -> aluI op NaN imm = Num 0.
Proof.
  unfold iTypes, aluI. repeat rewrite includes_cons. rewrite includes_nil.
  destruct (String.eqb_spec op "ADDI") as [E | _]; [intros _; reflexivity | ].
  destruct (String.eqb_spec op "SLTI") as [E | _]; [intros _; reflexivity | discriminate].
Qed.

Lemma withDestination_cases (op : string) :
  includes withDestination op = true ->
  includes rTypes op = true \/ includes iTypes op = true \/ op = "LW".
Proof.
  unfold withDestination, rTypes, iTypes. cbn [app].
  case_op op; intros H; try discriminate H; auto.
Qed.

Lemma registerOperands_rTypes (op : string) :
  includes rTypes op = true -> registerOperands op = 3%nat.
Proof. intros H. unfold registerOperands. rewrite H. reflexivity. Qed.

Lemma registerOperands_iTypes (op : string) :
  includes iTypes op = true -> registerOperands op = 2%nat.
Proof.
  intros H. unfold registerOperands.
  rewrite (includes_iTypes_not_rTypes _ H).
  revert H. unfold iTypes. cbn [app]. case_op op; intros H; try discriminate H; reflexivity.
Qed.

Lemma writeBack_outOfRange_eq (rd res : Number) (st : State) :
  regs_ok (regs st) -> outOfRange rd = true -> writeBack rd res st = st.
Proof.
  intros Hok Hout. unfold writeBack.
  destruct (negb _); [ | reflexivity].
  rewrite (regSet_outOfRange _ _ _ Hok Hout). destruct st. reflexivity.
Qed.

Lemma int32_zero : int32 0.
Proof. unfold int32. lia. Qed.

(** The claim C9 as it is worded fails on the program [ADD x99, x1]: the
    first operand token resolves to index 99, and the step faults, because
    the instruction lacks its third operand. *)
Lemma out_of_range_register_counterexample :
  let st := fresh farRegisterTruncated in
  let i := mkInstr 0 "ADD x99, x1" "??????? ????? ????? ??? 0110011" in
  fetch st = Some i
  /\ partsOf i !! 1%nat = Some "x99"
  /\ regIndex "x99" = Num 99
  /\ ~ (succeeded (Part000.step st).1 = true /\ pc (Part000.step st).2 = pc st + 4).
Proof.
  repeat split; try (vm_compute; reflexivity).
  intros [H _]. vm_compute in H. discriminate H.
Qed.

(** C9, amended. Take a step on an instruction that has the register tokens
    its mnemonic needs.  Whatever indices they resolve to, 32 and more
    included, the step does not fault: it succeeds, the program counter
    advances by 4 and [halted] stays false.  With the destination out of
    range the object changes in its program counter and trace only: the 32
    registers and the data memory are as before.  A source out of range
    reads as [undefined] and raises nothing: the register forms (rd in
    1..31) write 0 for ADD, SUB, MULT, AND and SLT, the other operand for
    OR, and for SLL the first operand unshifted, or 0 when it is the first
    operand that is missing; ADDI and SLTI write 0; SW stores [undefined];
    PRINT reports [undefined]; a base register out of range makes the
    address of LW and of SW NaN.  The step of [script.js] is the same. *)
Theorem out_of_range_register_does_not_fault (st : State) (i : Instr) :
  regs_ok (regs st) ->
  halted st = false ->
  fetch st = Some i ->
  (registerOperands (opOf i) < length (partsOf i))%nat ->
  (exists st', Part000.step st = (Executed (binary i), st')
     /\ pc st' = pc st + 4 /\ halted st' = false)
  /\ (forall t1,
        includes withDestination (opOf i) = true ->
        partsOf i !! 1%nat = Some t1 ->
        outOfRange (regIndex t1) = true ->
        exists note,
          Part000.step st =
            (Executed (binary i),
             set_pc (pc st + 4) (log (LogStep (pc st) (text i) note) st))
          /\ (opOf i <> "LW" -> note = NoNote))
  /\ (forall t1 t2 t3 d,
        includes rTypes (opOf i) = true ->
        partsOf i !! 1%nat = Some t1 ->
        partsOf i !! 2%nat = Some t2 ->
        partsOf i !! 3%nat = Some t3 ->
        regIndex t1 = Num d -> 0 < d < 32 ->
        outOfRange (regIndex t2) = true \/ outOfRange (regIndex t3) = true ->
        Part000.step st =
          (Executed (binary i),
           set_pc (pc st + 4)
             (log (LogStep (pc st) (text i) NoNote)
                (set_regs
                   (<[Z.to_nat d :=
                        defaultedR (opOf i)
                          (asWord (regGet (regs st) (regIndex t2)))
                          (asWord (regGet (regs st) (regIndex t3)))]> (regs st))
                   st))))
  /\ (forall t1 t2 d,
        includes iTypes (opOf i) = true ->
        partsOf i !! 1%nat = Some t1 ->
        partsOf i !! 2%nat = Some t2 ->
        regIndex t1 = Num d -> 0 < d < 32 ->
        outOfRange (regIndex t2) = true ->
        Part000.step st =
          (Executed (binary i),
           set_pc (pc st + 4)
             (log (LogStep (pc st) (text i) NoNote)
                (set_regs (<[Z.to_nat d := 0]> (regs st)) st))))
  /\ (forall t1 t2,
        opOf i = "SW" ->
        partsOf i !! 1%nat = Some t1 ->
        partsOf i !! 2%nat = Some t2 ->
        outOfRange (regIndex t1) = true ->
        let a := effectiveAddress st (partsOf i) t2 in
        Part000.step st =
          (Executed (binary i),
           set_pc (pc st + 4)
             (log (LogStep (pc st) (text i) (StoreNote Undefined a))
                (set_dataMemory (<[a := Undefined]> (dataMemory st)) st))))
  /\ (forall t1,
        opOf i = "PRINT" ->
        partsOf i !! 1%nat = Some t1 ->
        outOfRange (regIndex t1) = true ->
        Part000.step st =
          (Executed (binary i),
           set_pc (pc st + 4) (log (LogStep (pc st) (text i) (PrintNote Undefined)) st)))
  /\ (forall t1 t2,
        opOf i = "LW" ->
        partsOf i !! 1%nat = Some t1 ->
        partsOf i !! 2%nat = Some t2 ->
        outOfRange (regIndex t2) = true ->
        let val := orZero (memGet (dataMemory st) NaN) in
        Part000.step st =
          (Executed (binary i),
           set_pc (pc st + 4)
             (log (LogStep (pc st) (text i) (LoadNote val NaN))
                (writeBack (regIndex t1) (ToNumber val) st))))
  /\ (forall t1 t2,
        opOf i = "SW" ->
        partsOf i !! 1%nat = Some t1 ->
        partsOf i !! 2%nat = Some t2 ->
        outOfRange (regIndex t2) = true ->
        let v := regGet (regs st) (regIndex t1) in
        Part000.step st =
          (Executed (binary i),
           set_pc (pc st + 4)
             (log (LogStep (pc st) (text i) (StoreNote v NaN))
                (set_dataMemory (<[NaN := v]> (dataMemory st)) st))))
  /\ ScriptJs.step st = Part000.step st.
Proof.
  intros Hok Hh Hf Hlen.
  split; [exact (step_no_fault st i Hh Hf Hlen) | ].
  split; [ | split; [ | split; [ | split; [ | split; [ | split; [ | split]]]]]].
  - intros t1 Hop H1 Hout.
    rewrite (step_running st i Hh Hf).
    destruct (withDestination_cases _ Hop) as [Hr | [Hi | Hl]].
    + rewrite (registerOperands_rTypes _ Hr) in Hlen.
      destruct (lookup_lt_is_Some_2 (partsOf i) 2) as [t2 H2]; [lia | ].
      destruct (lookup_lt_is_Some_2 (partsOf i) 3) as [t3 H3]; [lia | ].
      rewrite (execute_rType _ _ t1 t2 t3 st Hr H1 H2 H3).
      rewrite (writeBack_outOfRange_eq _ _ st Hok Hout).
      exists NoNote. split; reflexivity.
    + rewrite (registerOperands_iTypes _ Hi) in Hlen.
      destruct (lookup_lt_is_Some_2 (partsOf i) 2) as [t2 H2]; [lia | ].
      rewrite (execute_iType _ _ t1 t2 st Hi H1 H2).
      rewrite (writeBack_outOfRange_eq _ _ st Hok Hout).
      exists NoNote. split; reflexivity.
    + rewrite Hl in Hlen |- *. change (registerOperands "LW") with 2%nat in Hlen.
      destruct (lookup_lt_is_Some_2 (partsOf i) 2) as [t2 H2]; [lia | ].
      rewrite (execute_LW _ t1 t2 st H1 H2).
      rewrite (writeBack_outOfRange_eq _ _ st Hok Hout).
      eexists. split; [reflexivity | congruence].
  - intros t1 t2 t3 d Hop H1 H2 H3 Hd Hrange Hout.
    assert (regGet (regs st) (regIndex t2) = Undefined
            \/ regGet (regs st) (regIndex t3) = Undefined) as Hu.
    { destruct Hout as [Ho | Ho]; [left | right]; apply regGet_outOfRange; assumption. }
    destruct (aluR_defaulted (opOf i) _ _ Hop
                (regGet_wordOrUndefined _ (regIndex t2) Hok)
                (regGet_wordOrUndefined _ (regIndex t3) Hok) Hu) as [Ealu Hres].
    rewrite (step_running st i Hh Hf), (execute_rType _ _ t1 t2 t3 st Hop H1 H2 H3).
    unfold operand. rewrite Ealu, Hd, writeBack_register by lia.
    rewrite (wrap32_id _ Hres). reflexivity.
  - intros t1 t2 d Hop H1 H2 Hd Hrange Hout.
    rewrite (step_running st i Hh Hf), (execute_iType _ _ t1 t2 st Hop H1 H2).
    unfold operand. rewrite (regGet_outOfRange _ _ Hok Hout). cbn [ToNumber].
    rewrite (aluI_undefined _ _ Hop), Hd, writeBack_register by lia.
    rewrite (wrap32_id 0 int32_zero). reflexivity.
  - intros t1 t2 Hop H1 H2 Hout a.
    rewrite (step_running st i Hh Hf), Hop, (execute_SW _ t1 t2 st H1 H2).
    rewrite (regGet_outOfRange _ _ Hok Hout). reflexivity.
  - intros t1 Hop H1 Hout.
    rewrite (step_running st i Hh Hf), Hop, (execute_PRINT _ t1 st H1).
    rewrite (regGet_outOfRange _ _ Hok Hout). reflexivity.
  - intros t1 t2 Hop H1 H2 Hout val.
    rewrite (step_running st i Hh Hf), Hop, (execute_LW _ t1 t2 st H1 H2).
    rewrite (effectiveAddress_NaN st (partsOf i) t2
               (or_intror (regGet_outOfRange _ _ Hok Hout))).
    destruct (writeBack_fields (regIndex t1)
                (ToNumber (orZero (memGet (dataMemory st) NaN))) st) as (Hpc & _).
    unfold finish. rewrite Hpc. reflexivity.
  - intros t1 t2 Hop H1 H2 Hout v.
    rewrite (step_running st i Hh Hf), Hop, (execute_SW _ t1 t2 st H1 H2).
    rewrite (effectiveAddress_NaN st (partsOf i) t2
               (or_intror (regGet_outOfRange _ _ Hok Hout))).
    reflexivity.
  - apply step_agree.
Qed.

Lemma out_of_range_register_does_not_fault_witness :
  let st := (Part000.step (fresh farSource)).2 in
  let i := mkInstr 4 "OR x2, x1, x77" "??????? ????? ????? ??? 0110011" in
  Part000.step st =
    (Executed (binary i),
     set_pc (pc st + 4)
       (log (LogStep (pc st) (text i) NoNote)
          (set_regs
             (<[Z.to_nat 2 :=
                  defaultedR (opOf i)
                    (asWord (regGet (regs st) (regIndex "x1")))
                    (asWord (regGet (regs st) (regIndex "x77")))]> (regs st))
             st))).
Proof.
  intros st i.
  refine (proj1 (proj2 (proj2 (out_of_range_register_does_not_fault st i _ _ _ _)))
            "x2" "x1" "x77" 2 _ _ _ _ _ _ (or_intror _));
    lazymatch goal with
    | |- regs_ok _ => regs_ok_by_computation
    | |- (_ < _)%nat => vm_compute; lia
    | |- _ /\ _ => lia
    | |- _ => vm_compute; reflexivity
    end.
Defined.

(** With x1 = 5: OR with the missing x77 leaves 5 in x2, ADD leaves 0 in
    x3. *)
Example farSource_registers :
  take 4 (regs (run Part000.step 3 (fresh farSource)).2) = [0; 5; 5; 0].
Proof. vm_compute. reflexivity. Qed.
